(** * actors-interop: a shallow embedding of the C++/Rust FFI interop layer

  The development follows the repository:
  - [messages/interop_messages.h]: the message schema (ids, fixed layouts);
  - the two fills of fixed-size character fields found in the sources
    ([tests/test_ffi.cpp], [PriceFeed::send_update]);
  - the generated codec ([to_c_struct] / [from_c_struct]);
  - [InteropManager::get_ref] (local table first, then the peer);
  - the peer's bridge functions as the C++ side sees them: [rust_actor_exists]
    a parameter of [get_ref], [rust_actor_send] a call recorded by [send];
  - [RustActorRef::send] (dispatch by message id, then [delete m]);
  - the [PriceFeed] publisher and its subscriber table.

  Conventions: a [std::string] is a [string]; a fixed [char\[N\]] buffer is a
  [list ascii] of length [N]; C integers are [Z] with their range written
  out; a [double] is carried as its 64-bit pattern; an [unordered_map] keyed
  by strings is a [gmap string _]. *)

From Stdlib Require Import ZArith List Ascii String Lia.
From stdpp Require Import gmap strings list fin_maps.

Local Open Scope Z_scope.

(** ** Characters, C strings and fixed buffers *)

Module CStr.

Definition NUL : ascii := Ascii.zero.

Definition is_nul (c : ascii) : bool := Ascii.eqb c NUL.

(** The characters that precede the first NUL: what [strlen] counts, what a
    [const char*] lets a callee see, and what
    [std::string(a.begin(), std::find(a.begin(), a.end(), '\0'))] builds
    (the whole array when it holds no NUL). *)
Fixpoint until_nul (l : list ascii) : list ascii :=
  match l with
  | [] => []
  | c :: l' => if is_nul c then [] else c :: until_nul l'
  end.

Definition strlen (s : list ascii) : nat := length (until_nul s).

(** [std::string::c_str()] handed to a C function: the callee reads up to
    the first NUL. *)
Definition c_str (s : string) : string :=
  string_of_list_ascii (until_nul (list_ascii_of_string s)).

(** [strncpy(dest, src, n)]: exactly [n] bytes of [dest] are written, the
    characters of the C string [src] (at most [n] of them) and then NUL
    padding; the bytes of [dest] from index [n] on are left as they were.
    When [n] exceeds the buffer the result is longer than [dest]: the
    overrun is visible as a change of length. *)
Definition strncpy (dest src : list ascii) (n : nat) : list ascii :=
  let body := firstn n (until_nul src) in
  body ++ repeat NUL (n - length body) ++ skipn n dest.

(** [std::fill(a.begin(), a.end(), c)]. *)
Definition std_fill (a : list ascii) (c : ascii) : list ascii :=
  repeat c (length a).

(** [std::copy(first, last, d.begin())] with [src] the range copied: the
    first [length src] elements of [d] are overwritten. *)
Definition std_copy (src d : list ascii) : list ascii :=
  src ++ skipn (length src) d.

(** [std::string(data, n)]: the first [n] bytes. *)
Definition string_of_bytes (data : list ascii) (n : nat) : string :=
  string_of_list_ascii (firstn n data).

Definition nul_free (l : list ascii) : Prop := Forall (fun c => is_nul c = false) l.

End CStr.

(** ** The message schema of [interop_messages.h] *)

Module Schema.

(** One constructor per [INTEROP_MESSAGE(name, id)] declaration. *)
Inductive MsgType :=
| Ping | Pong | DataRequest | DataResponse
| Subscribe | Unsubscribe | MarketUpdate | MarketDepth.

Definition message_id (t : MsgType) : Z :=
  match t with
  | Ping => 1000
  | Pong => 1001
  | DataRequest => 1002
  | DataResponse => 1003
  | Subscribe => 1010
  | Unsubscribe => 1011
  | MarketUpdate => 1012
  | MarketDepth => 1013
  end.

(** The declarations in the order of the header. *)
Definition interop_schema : list MsgType :=
  [Ping; Pong; DataRequest; DataResponse;
   Subscribe; Unsubscribe; MarketUpdate; MarketDepth].

Definition registered_ids : list Z := map message_id interop_schema.

(** Ids below this bound are left to the runtimes' control messages. *)
Definition FIRST_INTEROP_ID : Z := 1000.

Definition INTEROP_STRING_MAX : nat := 64.
Definition TOPIC_SIZE : nat := 32.
Definition SYMBOL_SIZE : nat := 8.
Definition DEPTH_LEVELS : nat := 5.

Definition type_of_id (id : Z) : option MsgType :=
  find (fun t => message_id t =? id) interop_schema.

End Schema.

(** ** Machine integers and doubles as the messages carry them *)

Module Num.

Definition in_int32 (z : Z) : bool := (- 2 ^ 31 <=? z) && (z <? 2 ^ 31).
Definition in_int64 (z : Z) : bool := (- 2 ^ 63 <=? z) && (z <? 2 ^ 63).
Definition to_uint32 (z : Z) : Z := z mod 2 ^ 32.
Definition to_size_t (z : Z) : Z := z mod 2 ^ 64.

(** The value an [int64_t] holds after a conversion or an operation whose
    mathematical result is [z]: [z] itself within the range, and outside it
    the two's complement wrap-around (C++ leaves signed overflow undefined;
    the wrap is what the 64-bit multiplication of the usual targets gives). *)
Definition to_int64 (z : Z) : Z := (z + 2 ^ 63) mod 2 ^ 64 - 2 ^ 63.

(** A [double] is carried as its IEEE-754 binary64 bit pattern; the codec
    only ever copies it. *)
Definition double := Z.
Definition in_double (d : double) : bool := (0 <=? d) && (d <? 2 ^ 64).

End Num.

(** ** The C structs of [interop_messages.h] (the fixed layout that crosses) *)

Module Wire.

(** [typedef struct { char data[INTEROP_STRING_MAX]; uint32_t len; } interop_string;] *)
Record interop_string := { data : list ascii; len : Z }.

Record Ping := { Ping_count : Z }.
Record Pong := { Pong_count : Z }.
Record DataRequest :=
  { DataRequest_request_id : Z; DataRequest_symbol : interop_string }.
Record DataResponse :=
  { DataResponse_request_id : Z;
    DataResponse_value : Num.double;
    DataResponse_found : Z  (* bool: 1=true, 0=false *) }.
Record Subscribe := { Subscribe_topic : list ascii }.
Record Unsubscribe := { Unsubscribe_topic : list ascii }.
Record MarketUpdate :=
  { MarketUpdate_symbol : list ascii;
    MarketUpdate_price : Num.double;
    MarketUpdate_timestamp : Z;
    MarketUpdate_volume : Z }.
Record MarketDepth :=
  { MarketDepth_symbol : list ascii;
    MarketDepth_num_levels : Z;
    MarketDepth_bid_prices : list Num.double;
    MarketDepth_ask_prices : list Num.double;
    MarketDepth_bid_sizes : list Z;
    MarketDepth_ask_sizes : list Z }.

(** What a [const void* msg_data] points to, by the struct it was taken from. *)
Inductive Struct :=
| SPing (c : Ping) | SPong (c : Pong)
| SDataRequest (c : DataRequest) | SDataResponse (c : DataResponse)
| SSubscribe (c : Subscribe) | SUnsubscribe (c : Unsubscribe)
| SMarketUpdate (c : MarketUpdate) | SMarketDepth (c : MarketDepth).

Definition struct_type (s : Struct) : Schema.MsgType :=
  match s with
  | SPing _ => Schema.Ping | SPong _ => Schema.Pong
  | SDataRequest _ => Schema.DataRequest | SDataResponse _ => Schema.DataResponse
  | SSubscribe _ => Schema.Subscribe | SUnsubscribe _ => Schema.Unsubscribe
  | SMarketUpdate _ => Schema.MarketUpdate | SMarketDepth _ => Schema.MarketDepth
  end.

End Wire.

(** ** The native C++ message classes ([namespace msg], [Message_N<id>])

  Field types follow the type mapping of the repository: [int32_t (bool)]
  is a [bool], [interop_string] a [std::string], [T\[N\]] a
  [std::array<T, N>]. *)

Module msg.

Record Ping := { Ping_count : Z }.
Record Pong := { Pong_count : Z }.
Record DataRequest := { DataRequest_request_id : Z; DataRequest_symbol : string }.
Record DataResponse :=
  { DataResponse_request_id : Z;
    DataResponse_value : Num.double;
    DataResponse_found : bool }.
Record Subscribe := { Subscribe_topic : list ascii }.
Record Unsubscribe := { Unsubscribe_topic : list ascii }.
Record MarketUpdate :=
  { MarketUpdate_symbol : list ascii;
    MarketUpdate_price : Num.double;
    MarketUpdate_timestamp : Z;
    MarketUpdate_volume : Z }.
Record MarketDepth :=
  { MarketDepth_symbol : list ascii;
    MarketDepth_num_levels : Z;
    MarketDepth_bid_prices : list Num.double;
    MarketDepth_ask_prices : list Num.double;
    MarketDepth_bid_sizes : list Z;
    MarketDepth_ask_sizes : list Z }.

(** A message of one of the eight schema classes. *)
Inductive InteropMessage :=
| MPing (m : Ping) | MPong (m : Pong)
| MDataRequest (m : DataRequest) | MDataResponse (m : DataResponse)
| MSubscribe (m : Subscribe) | MUnsubscribe (m : Unsubscribe)
| MMarketUpdate (m : MarketUpdate) | MMarketDepth (m : MarketDepth).

Definition class_of (m : InteropMessage) : Schema.MsgType :=
  match m with
  | MPing _ => Schema.Ping | MPong _ => Schema.Pong
  | MDataRequest _ => Schema.DataRequest | MDataResponse _ => Schema.DataResponse
  | MSubscribe _ => Schema.Subscribe | MUnsubscribe _ => Schema.Unsubscribe
  | MMarketUpdate _ => Schema.MarketUpdate | MMarketDepth _ => Schema.MarketDepth
  end.

(** Any [actors::Message]: a schema class, or a class outside the schema
    (a control message such as Start, or an application class) of which
    only the id is seen. *)
Inductive Message :=
| Interop (m : InteropMessage)
| Foreign (id : Z).

Definition get_message_id (m : Message) : Z :=
  match m with
  | Interop i => Schema.message_id (class_of i)
  | Foreign id => id
  end.

End msg.

(** ** Fixed-size character fields as the sources fill and read them *)

Module Fields.
Import CStr.

(** [tests/test_ffi.cpp], test 3:
    [std::strncpy(req.symbol.data, symbol, INTEROP_STRING_MAX - 1);
     req.symbol.len = strlen(symbol);]
    [req_symbol] is the field before the fill ([DataRequest req;] is not
    initialised), [symbol] what the [const char*] points to. *)
Definition set_request_symbol
    (req_symbol : Wire.interop_string) (symbol : list ascii) : Wire.interop_string :=
  {| Wire.data := strncpy (Wire.data req_symbol) symbol (Schema.INTEROP_STRING_MAX - 1);
     Wire.len := Num.to_uint32 (Z.of_nat (strlen symbol)) |}.

(** [PriceFeed::send_update], the copy of [symbol] into [update->symbol]:
    [std::fill(update->symbol.begin(), update->symbol.end(), '\0');
     std::copy(symbol.begin(),
               symbol.begin() + std::min(symbol.size(), update->symbol.size() - 1),
               update->symbol.begin());]
    [size() - 1] is computed in [size_t]. *)
Definition copy_symbol (update_symbol : list ascii) (symbol : string) : list ascii :=
  let chars := list_ascii_of_string symbol in
  let zeroed := std_fill update_symbol NUL in
  let n := Z.min (Z.of_nat (length chars))
                 (Num.to_size_t (Z.of_nat (length update_symbol) - 1)) in
  std_copy (firstn (Z.to_nat n) chars) zeroed.

(** [std::string topic(msg->topic.data(),
                       std::find(msg->topic.begin(), msg->topic.end(), '\0'));]
    of [PriceFeed::on_subscribe] / [on_unsubscribe], and the same idiom of the
    subscribers for [MarketUpdate::symbol]. *)
Definition string_of_char_array (a : list ascii) : string :=
  string_of_list_ascii (until_nul a).

(** A value-initialised [std::array<char, N>]. *)
Definition zero_array (n : nat) : list ascii := repeat NUL n.

End Fields.

(** ** The generated codec: [to_c_struct] / [from_c_struct]

    [generated/cpp/InteropMessages.hpp] is produced by the generator and is not
    part of the sources at hand; only the declarations of the methods are. *)

Module Codec.
Import CStr.

(** Modelled from the spec: a fixed-capacity array field copied element by
    element; a longer collection is truncated at the capacity (a shorter one
    is padded). *)
Definition copy_array {A : Type} (n : nat) (pad : A) (a : list A) : list A :=
  firstn n a ++ repeat pad (n - length a).

(** Modelled from the spec: encoding of a bounded string of declared capacity
    N = [INTEROP_STRING_MAX]. A string of at most N characters is stored whole;
    a longer one is truncated to its first N - 1 characters (the spec's
    truncation law); the rest of the buffer is NUL, and the length field
    reports the original length (as the [uint32_t] it is). *)
Definition string_to_c (s : string) : Wire.interop_string :=
  let chars := list_ascii_of_string s in
  let stored :=
    if (length chars <=? Schema.INTEROP_STRING_MAX)%nat then chars
    else firstn (Schema.INTEROP_STRING_MAX - 1) chars in
  {| Wire.data := std_copy stored (Fields.zero_array Schema.INTEROP_STRING_MAX);
     Wire.len := Num.to_uint32 (Z.of_nat (length chars)) |}.

(** Modelled from the spec: decoding of a bounded string. A reported length
    of at most N is the number of characters stored; a larger one marks a
    truncated string, of which N - 1 characters are stored. *)
Definition string_from_c (c : Wire.interop_string) : string :=
  let n :=
    if Wire.len c <=? Z.of_nat Schema.INTEROP_STRING_MAX
    then Z.to_nat (Wire.len c)
    else (Schema.INTEROP_STRING_MAX - 1)%nat in
  string_of_bytes (Wire.data c) n.

(** Modelled from the spec: a [bool] travels as an [int32_t], 1 for true and 0
    for false; any non-zero value reads back as true. *)
Definition bool_to_c (b : bool) : Z := if b then 1 else 0.

(** Modelled from the spec: see [bool_to_c]. *)
Definition bool_from_c (z : Z) : bool := negb (z =? 0).

(** Modelled from the spec: [msg::Ping::to_c_struct]. *)
Definition to_c_struct_Ping (m : msg.Ping) : Wire.Ping :=
  {| Wire.Ping_count := msg.Ping_count m |}.

(** Modelled from the spec: [msg::Ping::from_c_struct]. *)
Definition from_c_struct_Ping (c : Wire.Ping) : msg.Ping :=
  {| msg.Ping_count := Wire.Ping_count c |}.

(** Modelled from the spec: [msg::Pong::to_c_struct]. *)
Definition to_c_struct_Pong (m : msg.Pong) : Wire.Pong :=
  {| Wire.Pong_count := msg.Pong_count m |}.

(** Modelled from the spec: [msg::Pong::from_c_struct]. *)
Definition from_c_struct_Pong (c : Wire.Pong) : msg.Pong :=
  {| msg.Pong_count := Wire.Pong_count c |}.

(** Modelled from the spec: [msg::DataRequest::to_c_struct]. *)
Definition to_c_struct_DataRequest (m : msg.DataRequest) : Wire.DataRequest :=
  {| Wire.DataRequest_request_id := msg.DataRequest_request_id m;
     Wire.DataRequest_symbol := string_to_c (msg.DataRequest_symbol m) |}.

(** Modelled from the spec: [msg::DataRequest::from_c_struct]. *)
Definition from_c_struct_DataRequest (c : Wire.DataRequest) : msg.DataRequest :=
  {| msg.DataRequest_request_id := Wire.DataRequest_request_id c;
     msg.DataRequest_symbol := string_from_c (Wire.DataRequest_symbol c) |}.

(** Modelled from the spec: [msg::DataResponse::to_c_struct]. *)
Definition to_c_struct_DataResponse (m : msg.DataResponse) : Wire.DataResponse :=
  {| Wire.DataResponse_request_id := msg.DataResponse_request_id m;
     Wire.DataResponse_value := msg.DataResponse_value m;
     Wire.DataResponse_found := bool_to_c (msg.DataResponse_found m) |}.

(** Modelled from the spec: [msg::DataResponse::from_c_struct]. *)
Definition from_c_struct_DataResponse (c : Wire.DataResponse) : msg.DataResponse :=
  {| msg.DataResponse_request_id := Wire.DataResponse_request_id c;
     msg.DataResponse_value := Wire.DataResponse_value c;
     msg.DataResponse_found := bool_from_c (Wire.DataResponse_found c) |}.

(** Modelled from the spec: [msg::Subscribe::to_c_struct]. *)
Definition to_c_struct_Subscribe (m : msg.Subscribe) : Wire.Subscribe :=
  {| Wire.Subscribe_topic := copy_array Schema.TOPIC_SIZE NUL (msg.Subscribe_topic m) |}.

(** Modelled from the spec: [msg::Subscribe::from_c_struct]. *)
Definition from_c_struct_Subscribe (c : Wire.Subscribe) : msg.Subscribe :=
  {| msg.Subscribe_topic := copy_array Schema.TOPIC_SIZE NUL (Wire.Subscribe_topic c) |}.

(** Modelled from the spec: [msg::Unsubscribe::to_c_struct]. *)
Definition to_c_struct_Unsubscribe (m : msg.Unsubscribe) : Wire.Unsubscribe :=
  {| Wire.Unsubscribe_topic := copy_array Schema.TOPIC_SIZE NUL (msg.Unsubscribe_topic m) |}.

(** Modelled from the spec: [msg::Unsubscribe::from_c_struct]. *)
Definition from_c_struct_Unsubscribe (c : Wire.Unsubscribe) : msg.Unsubscribe :=
  {| msg.Unsubscribe_topic := copy_array Schema.TOPIC_SIZE NUL (Wire.Unsubscribe_topic c) |}.

(** Modelled from the spec: [msg::MarketUpdate::to_c_struct]. *)
Definition to_c_struct_MarketUpdate (m : msg.MarketUpdate) : Wire.MarketUpdate :=
  {| Wire.MarketUpdate_symbol := copy_array Schema.SYMBOL_SIZE NUL (msg.MarketUpdate_symbol m);
     Wire.MarketUpdate_price := msg.MarketUpdate_price m;
     Wire.MarketUpdate_timestamp := msg.MarketUpdate_timestamp m;
     Wire.MarketUpdate_volume := msg.MarketUpdate_volume m |}.

(** Modelled from the spec: [msg::MarketUpdate::from_c_struct]. *)
Definition from_c_struct_MarketUpdate (c : Wire.MarketUpdate) : msg.MarketUpdate :=
  {| msg.MarketUpdate_symbol := copy_array Schema.SYMBOL_SIZE NUL (Wire.MarketUpdate_symbol c);
     msg.MarketUpdate_price := Wire.MarketUpdate_price c;
     msg.MarketUpdate_timestamp := Wire.MarketUpdate_timestamp c;
     msg.MarketUpdate_volume := Wire.MarketUpdate_volume c |}.

(** Modelled from the spec: [msg::MarketDepth::to_c_struct]. *)
Definition to_c_struct_MarketDepth (m : msg.MarketDepth) : Wire.MarketDepth :=
  {| Wire.MarketDepth_symbol := copy_array Schema.SYMBOL_SIZE NUL (msg.MarketDepth_symbol m);
     Wire.MarketDepth_num_levels := msg.MarketDepth_num_levels m;
     Wire.MarketDepth_bid_prices := copy_array Schema.DEPTH_LEVELS 0 (msg.MarketDepth_bid_prices m);
     Wire.MarketDepth_ask_prices := copy_array Schema.DEPTH_LEVELS 0 (msg.MarketDepth_ask_prices m);
     Wire.MarketDepth_bid_sizes := copy_array Schema.DEPTH_LEVELS 0 (msg.MarketDepth_bid_sizes m);
     Wire.MarketDepth_ask_sizes := copy_array Schema.DEPTH_LEVELS 0 (msg.MarketDepth_ask_sizes m) |}.

(** Modelled from the spec: [msg::MarketDepth::from_c_struct]. *)
Definition from_c_struct_MarketDepth (c : Wire.MarketDepth) : msg.MarketDepth :=
  {| msg.MarketDepth_symbol := copy_array Schema.SYMBOL_SIZE NUL (Wire.MarketDepth_symbol c);
     msg.MarketDepth_num_levels := Wire.MarketDepth_num_levels c;
     msg.MarketDepth_bid_prices := copy_array Schema.DEPTH_LEVELS 0 (Wire.MarketDepth_bid_prices c);
     msg.MarketDepth_ask_prices := copy_array Schema.DEPTH_LEVELS 0 (Wire.MarketDepth_ask_prices c);
     msg.MarketDepth_bid_sizes := copy_array Schema.DEPTH_LEVELS 0 (Wire.MarketDepth_bid_sizes c);
     msg.MarketDepth_ask_sizes := copy_array Schema.DEPTH_LEVELS 0 (Wire.MarketDepth_ask_sizes c) |}.

(** Modelled from the spec: the encoder of each message type, by class. *)
Definition to_c_struct (m : msg.InteropMessage) : Wire.Struct :=
  match m with
  | msg.MPing p => Wire.SPing (to_c_struct_Ping p)
  | msg.MPong p => Wire.SPong (to_c_struct_Pong p)
  | msg.MDataRequest p => Wire.SDataRequest (to_c_struct_DataRequest p)
  | msg.MDataResponse p => Wire.SDataResponse (to_c_struct_DataResponse p)
  | msg.MSubscribe p => Wire.SSubscribe (to_c_struct_Subscribe p)
  | msg.MUnsubscribe p => Wire.SUnsubscribe (to_c_struct_Unsubscribe p)
  | msg.MMarketUpdate p => Wire.SMarketUpdate (to_c_struct_MarketUpdate p)
  | msg.MMarketDepth p => Wire.SMarketDepth (to_c_struct_MarketDepth p)
  end.

(** Modelled from the spec: the decoder of each message type, by struct. *)
Definition from_c_struct (c : Wire.Struct) : msg.InteropMessage :=
  match c with
  | Wire.SPing p => msg.MPing (from_c_struct_Ping p)
  | Wire.SPong p => msg.MPong (from_c_struct_Pong p)
  | Wire.SDataRequest p => msg.MDataRequest (from_c_struct_DataRequest p)
  | Wire.SDataResponse p => msg.MDataResponse (from_c_struct_DataResponse p)
  | Wire.SSubscribe p => msg.MSubscribe (from_c_struct_Subscribe p)
  | Wire.SUnsubscribe p => msg.MUnsubscribe (from_c_struct_Unsubscribe p)
  | Wire.SMarketUpdate p => msg.MMarketUpdate (from_c_struct_MarketUpdate p)
  | Wire.SMarketDepth p => msg.MMarketDepth (from_c_struct_MarketDepth p)
  end.

(** The declared bounds of the fields, type by type: the range of the integer
    type, the 64 bits of a double, the exact size of a [std::array], and for a
    string the declared capacity [INTEROP_STRING_MAX] of an [interop_string]
    (documented as its maximum number of characters). *)
Definition array_fits {A : Type} (n : nat) (ok : A -> bool) (a : list A) : bool :=
  (length a =? n)%nat && forallb ok a.

Definition char_ok (_ : ascii) : bool := true.

Definition string_fits (s : string) : bool :=
  (String.length s <=? Schema.INTEROP_STRING_MAX)%nat.

Definition within_bounds (m : msg.InteropMessage) : bool :=
  match m with
  | msg.MPing p => Num.in_int32 (msg.Ping_count p)
  | msg.MPong p => Num.in_int32 (msg.Pong_count p)
  | msg.MDataRequest p =>
      Num.in_int32 (msg.DataRequest_request_id p)
      && string_fits (msg.DataRequest_symbol p)
  | msg.MDataResponse p =>
      Num.in_int32 (msg.DataResponse_request_id p)
      && Num.in_double (msg.DataResponse_value p)
  | msg.MSubscribe p => array_fits Schema.TOPIC_SIZE char_ok (msg.Subscribe_topic p)
  | msg.MUnsubscribe p => array_fits Schema.TOPIC_SIZE char_ok (msg.Unsubscribe_topic p)
  | msg.MMarketUpdate p =>
      array_fits Schema.SYMBOL_SIZE char_ok (msg.MarketUpdate_symbol p)
      && Num.in_double (msg.MarketUpdate_price p)
      && Num.in_int64 (msg.MarketUpdate_timestamp p)
      && Num.in_int32 (msg.MarketUpdate_volume p)
  | msg.MMarketDepth p =>
      array_fits Schema.SYMBOL_SIZE char_ok (msg.MarketDepth_symbol p)
      && Num.in_int32 (msg.MarketDepth_num_levels p)
      && array_fits Schema.DEPTH_LEVELS Num.in_double (msg.MarketDepth_bid_prices p)
      && array_fits Schema.DEPTH_LEVELS Num.in_double (msg.MarketDepth_ask_prices p)
      && array_fits Schema.DEPTH_LEVELS Num.in_int32 (msg.MarketDepth_bid_sizes p)
      && array_fits Schema.DEPTH_LEVELS Num.in_int32 (msg.MarketDepth_ask_sizes p)
  end.

End Codec.

(** ** Actors, references and the outcome of a call *)

Module Actors.

(** An actor as seen through an [Actor*]: the object's address and the name
    [get_name()] returns. *)
Record Actor := { addr : positive; name : string }.

(** [actors::RustActorRef]: a target name and the sender name given at
    construction. *)
Record RustActorRef := { target_name_ : string; sender_name_ : string }.

(** [actors::ActorRef], a variant over the kinds of reference. *)
Inductive ActorRef :=
| LocalActorRef (a : Actor)
| RemoteActorRef (endpoint : string)
| ToRust (r : RustActorRef).

(** How a C++ call ends: it returns, it throws [std::runtime_error(what)] to
    its caller, or the process is ended by [std::terminate]. *)
Inductive outcome (A : Type) :=
| Returned (a : A)
| Thrown (what : string)
| Terminated.
Arguments Returned {A} a.
Arguments Thrown {A} what.
Arguments Terminated {A}.

(** A call of a function declared [noexcept]: an exception that would leave
    it ends the process. *)
Definition noexcept {A : Type} (o : outcome A) : outcome A :=
  match o with
  | Thrown _ => Terminated
  | _ => o
  end.

(** The calls that cross to the Rust side, as the C++ side issues them. *)
Inductive BridgeCall :=
| Exists (name : string)
| Send (actor_name : string) (sender_name : option string)
       (msg_type : Z) (msg_data : Wire.Struct).

End Actors.

(** ** [InteropManager::get_ref] *)

Module InteropManager.
Import Actors.

Section GetRef.

(** The peer's [extern "C" int32_t rust_actor_exists(const char* name)]. *)
Variable rust_actor_exists : string -> Z.

(** [actors::Manager::get_actor_by_name] on the manager's table of managed
    actors; a null pointer is [None]. *)
Definition get_actor_by_name (actors : gmap string Actor) (n : string) : option Actor :=
  actors !! n.

(** The result of the call and the bridge calls it issued, in order.
[[
    if (Actor* a = get_actor_by_name(name)) return ActorRef(a);
    if (rust_actor_exists(name.c_str())) return ActorRef(RustActorRef(name, ""));
    throw std::runtime_error("Actor not found: " + name);
]] *)
Definition get_ref (actors : gmap string Actor) (n : string)
  : outcome ActorRef * list BridgeCall :=
  match get_actor_by_name actors n with
  | Some a => (Returned (LocalActorRef a), [])
  | None =>
      if negb (rust_actor_exists (CStr.c_str n) =? 0)
      then (Returned (ToRust {| target_name_ := n; sender_name_ := "" |}),
            [Exists (CStr.c_str n)])
      else (Thrown ("Actor not found: " ++ n)%string, [Exists (CStr.c_str n)])
  end.

(** [PingActor::on_start] (ping_pong example), as far as the reference goes:
    [pong_ref_ = ...->get_ref("rust_pong");] inside a [noexcept] handler. *)
Definition on_start_resolve (actors : gmap string Actor) : outcome ActorRef :=
  noexcept (fst (get_ref actors "rust_pong")).

End GetRef.

End InteropManager.

(** ** [RustActorRef::send] ([cpp/src/RustActorRef.cpp]) *)

Module RustActorRef.
Import Actors.

(** The free store as far as messages go is a [gmap positive msg.Message]:
    the live [Message] objects by address. *)

(** What a call of [send] does, in order: bridge calls and deletions. *)
Inductive Event :=
| Bridge (c : BridgeCall)
| Delete (p : positive).

(** [static_cast<const msg::T*>(m)]: defined when [m] is a [msg::T]. *)
Definition as_Ping (m : msg.Message) : option msg.Ping :=
  match m with msg.Interop (msg.MPing p) => Some p | _ => None end.
Definition as_Pong (m : msg.Message) : option msg.Pong :=
  match m with msg.Interop (msg.MPong p) => Some p | _ => None end.
Definition as_DataRequest (m : msg.Message) : option msg.DataRequest :=
  match m with msg.Interop (msg.MDataRequest p) => Some p | _ => None end.
Definition as_DataResponse (m : msg.Message) : option msg.DataResponse :=
  match m with msg.Interop (msg.MDataResponse p) => Some p | _ => None end.
Definition as_Subscribe (m : msg.Message) : option msg.Subscribe :=
  match m with msg.Interop (msg.MSubscribe p) => Some p | _ => None end.
Definition as_Unsubscribe (m : msg.Message) : option msg.Unsubscribe :=
  match m with msg.Interop (msg.MUnsubscribe p) => Some p | _ => None end.
Definition as_MarketUpdate (m : msg.Message) : option msg.MarketUpdate :=
  match m with msg.Interop (msg.MMarketUpdate p) => Some p | _ => None end.
Definition as_MarketDepth (m : msg.Message) : option msg.MarketDepth :=
  match m with msg.Interop (msg.MMarketDepth p) => Some p | _ => None end.

(** [sender_name_.empty() ? nullptr : sender_name_.c_str()]. *)
Definition sender_name_cstr (self : RustActorRef) : option string :=
  if String.eqb (sender_name_ self) "" then None else Some (CStr.c_str (sender_name_ self)).

(** One [rust_actor_send(target_name_.c_str(), sender_name_cstr, id, &c_msg)]. *)
Definition call_rust_actor_send (self : RustActorRef) (id : Z) (c_msg : Wire.Struct) : Event :=
  Bridge (Send (CStr.c_str (target_name_ self)) (sender_name_cstr self) id c_msg).

(** The [switch (m->get_message_id())]: the bridge calls of the branch taken;
    [None] when the cast of a branch is applied to an object of another
    class. The result of [rust_actor_send] is not looked at. *)
Definition dispatch (self : RustActorRef) (m : msg.Message) : option (list Event) :=
  match msg.get_message_id m with
  | 1000 =>
      p ← as_Ping m;
      Some [call_rust_actor_send self 1000 (Wire.SPing (Codec.to_c_struct_Ping p))]
  | 1001 =>
      p ← as_Pong m;
      Some [call_rust_actor_send self 1001 (Wire.SPong (Codec.to_c_struct_Pong p))]
  | 1002 =>
      p ← as_DataRequest m;
      Some [call_rust_actor_send self 1002
              (Wire.SDataRequest (Codec.to_c_struct_DataRequest p))]
  | 1003 =>
      p ← as_DataResponse m;
      Some [call_rust_actor_send self 1003
              (Wire.SDataResponse (Codec.to_c_struct_DataResponse p))]
  | 1010 =>
      p ← as_Subscribe m;
      Some [call_rust_actor_send self 1010 (Wire.SSubscribe (Codec.to_c_struct_Subscribe p))]
  | 1011 =>
      p ← as_Unsubscribe m;
      Some [call_rust_actor_send self 1011
              (Wire.SUnsubscribe (Codec.to_c_struct_Unsubscribe p))]
  | 1012 =>
      p ← as_MarketUpdate m;
      Some [call_rust_actor_send self 1012
              (Wire.SMarketUpdate (Codec.to_c_struct_MarketUpdate p))]
  | 1013 =>
      p ← as_MarketDepth m;
      Some [call_rust_actor_send self 1013
              (Wire.SMarketDepth (Codec.to_c_struct_MarketDepth p))]
  | _ => Some []  (* Unknown message type - silently ignore *)
  end.

(** [void RustActorRef::send(const Message* m, [[maybe_unused]] Actor* sender)]:
    the dispatch, then [delete m]. [None] when [m] does not point to a live
    message or a cast is ill-typed; otherwise the store and the events of the
    call. The [sender] argument is not used. *)
Definition send (self : RustActorRef) (m : positive) (sender : option Actor)
    (h : gmap positive msg.Message)
  : option (gmap positive msg.Message * list Event) :=
  obj ← h !! m;
  calls ← dispatch self obj;
  Some (delete m h, calls ++ [Delete m]).

(** The bridge calls among the events of a call. *)
Definition bridge_calls (evs : list Event) : list BridgeCall :=
  omap (fun e => match e with Bridge c => Some c | Delete _ => None end) evs.

(** How many times [p] is deleted by the events of a call. *)
Definition is_delete (p : positive) (e : Event) : bool :=
  match e with
  | Delete q => Pos.eqb p q
  | Bridge _ => false
  end.

Definition deletions (p : positive) (evs : list Event) : nat :=
  length (List.filter (is_delete p) evs).

(** The dynamic class of a message agrees with its id: an object outside the
    schema does not carry a schema id. *)
Definition well_typed (m : msg.Message) : bool :=
  match m with
  | msg.Interop _ => true
  | msg.Foreign id => negb (existsb (Z.eqb id) Schema.registered_ids)
  end.

End RustActorRef.

(** ** The [PriceFeed] publisher
    ([examples/rust_subscribes_cpp_publisher/cpp_publisher.cpp]) *)

Module PriceFeed.
Import Actors.

(** [struct SubscriberInfo { actors::ActorRef ref; std::vector<std::string> topics; };]
    A default-constructed [ActorRef] refers to nothing. *)
Record SubscriberInfo := { ref : option ActorRef; topics : list string }.

Definition default_SubscriberInfo : SubscriberInfo := {| ref := None; topics := [] |}.

(** The members [subscribers_] and [prices_]. *)
Record State :=
  { subscribers_ : gmap string SubscriberInfo;
    prices_ : gmap string Num.double }.

(** What the handlers read from outside: [std::time(nullptr)] and [rand()]. *)
Record Env := { time_now : Z; rand_value : Z }.

(** A message handed to a reference: [ref.send(update, this)]. *)
Record Sent := { sent_to : option ActorRef; sent_update : msg.MarketUpdate }.

(** The constructor: the four initial prices (150.0, 2800.0, 380.0, 3400.0 as
    binary64) and no subscriber. *)
Definition PriceFeed_new : State :=
  {| subscribers_ := ∅;
     prices_ :=
       <["AAPL"%string := 4639481672377565184]>
       (<["GOOG"%string := 4658375680189267968]>
       (<["MSFT"%string := 4645392646888488960]>
       (<["AMZN"%string := 4659695094142599168]> ∅))) |}.

(** [send_update(subscriber, symbol, price)]: the update built and handed to
    the subscriber's reference. The timestamp is
    [static_cast<int64_t>(std::time(nullptr)) * 1000], a product of two
    [int64_t]. *)
Definition send_update (env : Env) (subscriber : SubscriberInfo)
    (symbol : string) (price : Num.double) : Sent :=
  {| sent_to := ref subscriber;
     sent_update :=
       {| msg.MarketUpdate_symbol :=
            Fields.copy_symbol (Fields.zero_array Schema.SYMBOL_SIZE) symbol;
          msg.MarketUpdate_price := price;
          msg.MarketUpdate_timestamp :=
            Num.to_int64 (Num.to_int64 (time_now env) * 1000);
          msg.MarketUpdate_volume := Z.rem (rand_value env) 10000 |} |}.

(** [subscribers_[sender_name]]: the entry, default-constructed when absent. *)
Definition entry (subs : gmap string SubscriberInfo) (sender_name : string)
  : SubscriberInfo :=
  default default_SubscriberInfo (subs !! sender_name).

(** [void on_subscribe(const msg::Subscribe* msg) noexcept], with
    [get_reply_to()] as [reply_to]: the new state and the updates sent. *)
Definition on_subscribe (env : Env) (self : State) (m : msg.Subscribe)
    (reply_to : option Actor) : State * list Sent :=
  let topic := Fields.string_of_char_array (msg.Subscribe_topic m) in
  match reply_to with
  | None => (self, [])  (* Subscribe with no sender! *)
  | Some sender =>
      let sender_name := name sender in
      (* Get or create subscriber entry with ActorRef *)
      let subs1 :=
        match subscribers_ self !! sender_name with
        | None =>
            <[sender_name := {| ref := Some (LocalActorRef sender); topics := [] |}]>
              (subscribers_ self)
        | Some _ => subscribers_ self
        end in
      let subscriber := entry subs1 sender_name in
      (* Add topic if not already subscribed *)
      let subscriber' :=
        if decide (topic ∈ topics subscriber)
        then subscriber
        else {| ref := ref subscriber; topics := topics subscriber ++ [topic] |} in
      let subs2 := <[sender_name := subscriber']> subs1 in
      (* Send initial price update *)
      let out :=
        match prices_ self !! topic with
        | Some price => [send_update env subscriber' topic price]
        | None => []
        end in
      ({| subscribers_ := subs2; prices_ := prices_ self |}, out)
  end.

(** [void on_unsubscribe(const msg::Unsubscribe* msg) noexcept]. *)
Definition on_unsubscribe (self : State) (m : msg.Unsubscribe)
    (reply_to : option Actor) : State :=
  let topic := Fields.string_of_char_array (msg.Unsubscribe_topic m) in
  match reply_to with
  | None => self
  | Some sender =>
      let sender_name := name sender in
      match subscribers_ self !! sender_name with
      | Some info =>
          (* topics.erase(std::remove(topics.begin(), topics.end(), topic), topics.end()) *)
          let topics' := filter (fun t => t ≠ topic) (topics info) in
          match topics' with
          | [] => {| subscribers_ := delete sender_name (subscribers_ self);
                     prices_ := prices_ self |}
          | _ => {| subscribers_ :=
                      <[sender_name := {| ref := ref info; topics := topics' |}]>
                        (subscribers_ self);
                    prices_ := prices_ self |}
          end
      | None => self
      end
  end.

(** A message delivered to the actor, with the sender the runtime reports. *)
Inductive Delivery :=
| DSubscribe (m : msg.Subscribe) (reply_to : option Actor)
| DUnsubscribe (m : msg.Unsubscribe) (reply_to : option Actor).

(** One handler invocation, by the [MESSAGE_HANDLER] registered for the
    class of the message. *)
Definition handle (env : Env) (self : State) (d : Delivery) : State :=
  match d with
  | DSubscribe m r => fst (on_subscribe env self m r)
  | DUnsubscribe m r => on_unsubscribe self m r
  end.

(** The state after a sequence of deliveries, each with the environment it
    ran in. *)
Definition run (self : State) (ds : list (Env * Delivery)) : State :=
  fold_left (fun s ed => handle (fst ed) s (snd ed)) ds self.

(** Every entry of [subscribers_] has a non-empty topics list. *)
Definition topics_nonempty (subs : gmap string SubscriberInfo) : Prop :=
  map_Forall (fun _ info => topics info ≠ []) subs.

(** For the statements below: what a delivery of Subscribe leaves in the
    entry of the sender, given the entry [old] found there. *)
Definition subscribed (old : option SubscriberInfo) (sender : Actor) (topic : string)
  : SubscriberInfo :=
  match old with
  | None => {| ref := Some (LocalActorRef sender); topics := [topic] |}
  | Some info =>
      if decide (topic ∈ topics info)
      then info
      else {| ref := ref info; topics := topics info ++ [topic] |}
  end.

End PriceFeed.

(** ** The other fills and readbacks of [tests/test_ffi.cpp] *)

Module TestFfi.
Import CStr.

(** [std::string(req.symbol.data, req.symbol.len)] of test 3: [len] bytes of
    the 64-byte [data]; [None] when that reads past the array. *)
Definition read_request_symbol (req_symbol : Wire.interop_string) : option string :=
  if (Z.to_nat (Wire.len req_symbol) <=? length (Wire.data req_symbol))%nat
  then Some (string_of_bytes (Wire.data req_symbol) (Z.to_nat (Wire.len req_symbol)))
  else None.

(** [std::strncpy(depth.symbol, "GOOG", 7);] of test 4, for any C string in
    place of the literal. [depth_symbol] is the array before the call. *)
Definition set_depth_symbol (depth_symbol : list ascii) (s : list ascii) : list ascii :=
  strncpy depth_symbol s 7.

(** [std::cout << depth.symbol]: the array read as a C string; [None] when the
    array holds no NUL, so that the read runs past it. *)
Definition print_c_string (a : list ascii) : option (list ascii) :=
  if existsb is_nul a then Some (until_nul a) else None.

End TestFfi.

(** ** [PriceFeed::publish_all] *)

Module PriceFeedPublish.
Import Actors PriceFeed.

Section PublishAll.

(** [price * (1.0 + (rand() / RAND_MAX - 0.5) * 0.01)] in double arithmetic,
    from the value [rand()] returned and the price. *)
Variable reprice : Z -> Num.double -> Num.double.

(** The value [rand()] returns when the first loop visits a symbol. *)
Variable rand_at : string -> Z.

(** [time()] and [rand()] when [send_update] runs for a subscriber and the
    topic at a position of its list. *)
Variable env_at : string -> nat -> Env.

(** The inner loop: one subscriber, its topics in order. *)
Definition updates_for (prices : gmap string Num.double)
    (sub_name : string) (sub_info : SubscriberInfo) : list Sent :=
  concat
    (imap (fun i topic =>
             match prices !! topic with
             | Some price => [send_update (env_at sub_name i) sub_info topic price]
             | None => []
             end)
          (topics sub_info)).

(** [void publish_all()]: every price is changed, then every subscriber is
    sent the new price of each of its topics that has one. The order in
    which an [unordered_map] is walked is not specified; [map_to_list]
    stands for it. *)
Definition publish_all (self : State) : State * list Sent :=
  let prices' :=
    map_imap (fun symbol price => Some (reprice (rand_at symbol) price)) (prices_ self) in
  ({| subscribers_ := subscribers_ self; prices_ := prices' |},
   concat (List.map (fun entry => updates_for prices' (fst entry) (snd entry))
                    (map_to_list (subscribers_ self)))).

End PublishAll.

End PriceFeedPublish.

(** ** [CppPriceFeed] ([examples/rust_subscribes_cpp_publisher/main.cpp]) *)

Module CppPriceFeed.
Import Actors.

(** [struct SubscriberInfo { string name; vector<string> topics; actors::ActorRef ref; };]
    A default-constructed [ActorRef] is not valid ([!ref] holds). *)
Record SubscriberInfo :=
  { name : string; topics : list string; ref : option ActorRef }.

Definition default_SubscriberInfo : SubscriberInfo :=
  {| name := ""; topics := []; ref := None |}.

Record State :=
  { subscribers_ : gmap string SubscriberInfo;
    prices_ : gmap string Num.double;
    update_count_ : Z }.

(** [send_update(sub, symbol, price)]: the update handed to [sub.ref], with
    the same [int64_t] timestamp as in [PriceFeed.send_update]. *)
Definition send_update (env : PriceFeed.Env) (sub : SubscriberInfo)
    (symbol : string) (price : Num.double) : PriceFeed.Sent :=
  {| PriceFeed.sent_to := ref sub;
     PriceFeed.sent_update :=
       {| msg.MarketUpdate_symbol :=
            Fields.copy_symbol (Fields.zero_array Schema.SYMBOL_SIZE) symbol;
          msg.MarketUpdate_price := price;
          msg.MarketUpdate_timestamp :=
            Num.to_int64 (Num.to_int64 (PriceFeed.time_now env) * 1000);
          msg.MarketUpdate_volume := Z.rem (PriceFeed.rand_value env) 10000 |} |}.

(** The sender name is fixed in this example. *)
Definition sender_name : string := "rust_price_monitor".

Section WithManager.

(** [manager_]: the table of managed actors and the peer's exists query. *)
Variable rust_actor_exists : string -> Z.
Variable actors : gmap string Actor.

(** [void on_subscribe(const msg::Subscribe* m) noexcept]: how the call ends
    (with the new state and the updates sent) and the bridge calls issued by
    the lookup.
[[
    auto& subscriber = subscribers_[sender_name];
    if (!subscriber.ref) {
        subscriber.name = sender_name;
        subscriber.ref = manager_->get_ref(sender_name);
    }
    auto& topics = subscriber.topics;
    if (find(topics.begin(), topics.end(), topic) == topics.end())
        topics.push_back(topic);
    auto it = prices_.find(topic);
    if (it != prices_.end()) send_update(subscriber, topic, it->second);
]] *)
Definition on_subscribe (env : PriceFeed.Env) (self : State) (m : msg.Subscribe)
  : outcome (State * list PriceFeed.Sent) * list BridgeCall :=
  let topic := Fields.string_of_char_array (msg.Subscribe_topic m) in
  let subscriber := default default_SubscriberInfo (subscribers_ self !! sender_name) in
  let finish (subscriber : SubscriberInfo) : State * list PriceFeed.Sent :=
    let subscriber' :=
      if decide (topic ∈ topics subscriber)
      then subscriber
      else {| name := name subscriber;
              topics := topics subscriber ++ [topic];
              ref := ref subscriber |} in
    ({| subscribers_ := <[sender_name := subscriber']> (subscribers_ self);
        prices_ := prices_ self;
        update_count_ := update_count_ self |},
     match prices_ self !! topic with
     | Some price => [send_update env subscriber' topic price]
     | None => []
     end) in
  match ref subscriber with
  | Some _ => (Returned (finish subscriber), [])
  | None =>
      let '(o, calls) := InteropManager.get_ref rust_actor_exists actors sender_name in
      (noexcept
         match o with
         | Returned r =>
             Returned (finish {| name := sender_name;
                                 topics := topics subscriber;
                                 ref := Some r |})
         | Thrown what => Thrown what
         | Terminated => Terminated
         end,
       calls)
  end.

End WithManager.

(** [void on_unsubscribe(const msg::Unsubscribe* m) noexcept]: the topic is
    removed from the list of the entry; the entry stays. *)
Definition on_unsubscribe (self : State) (m : msg.Unsubscribe) : State :=
  let topic := Fields.string_of_char_array (msg.Unsubscribe_topic m) in
  match subscribers_ self !! sender_name with
  | Some info =>
      {| subscribers_ :=
           <[sender_name :=
               {| name := name info;
                  topics := filter (fun t => t ≠ topic) (topics info);
                  ref := ref info |}]> (subscribers_ self);
         prices_ := prices_ self;
         update_count_ := update_count_ self |}
  | None => self
  end.

End CppPriceFeed.

(** ** [PingActor] (ping_pong example) *)

Module PingActor.
Import Actors.

(** The members [pong_ref_], [max_count_] and [pong_resolved_]. *)
Record State :=
  { pong_ref_ : option ActorRef; max_count_ : Z; pong_resolved_ : bool }.

(** What a handler does besides changing its members: a message handed to a
    reference, or [manager_->terminate()]. *)
Inductive Action :=
| SendVia (r : option ActorRef) (m : msg.InteropMessage)
| Terminate.

(** [PingActor(mgr, max)]. *)
Definition PingActor_new (max : Z) : State :=
  {| pong_ref_ := None; max_count_ := max; pong_resolved_ := false |}.

Section WithManager.

Variable rust_actor_exists : string -> Z.
Variable actors : gmap string Actor.

(** [void on_start(const actors::msg::Start* start) noexcept]:
    [pong_ref_ = ...->get_ref("rust_pong"); pong_resolved_ = true;
     pong_ref_.send(new msg::Ping{1}, this);] *)
Definition on_start (self : State) : outcome (State * list Action) * list BridgeCall :=
  let '(o, calls) := InteropManager.get_ref rust_actor_exists actors "rust_pong" in
  (noexcept
     match o with
     | Returned r =>
         Returned ({| pong_ref_ := Some r;
                      max_count_ := max_count_ self;
                      pong_resolved_ := true |},
                   [SendVia (Some r) (msg.MPing {| msg.Ping_count := 1 |})])
     | Thrown what => Thrown what
     | Terminated => Terminated
     end,
   calls).

End WithManager.


End PingActor.

(** ** [MarketSubscriber] (pubsub example) *)

Module MarketSubscriber.

(** [void on_update(const msg::MarketUpdate* m) noexcept], on the member
    [update_count_]: the new count and whether [manager_->terminate()] is
    called. *)
Definition on_update (update_count_ : Z) (m : msg.MarketUpdate) : Z * bool :=
  let update_count_ := update_count_ + 1 in
  (update_count_, update_count_ >=? 3).

(** The count after a sequence of updates and the number of calls of
    [terminate] they made. *)
Definition run (update_count_ : Z) (ms : list msg.MarketUpdate) : Z * nat :=
  fold_left
    (fun st m =>
       let '(c, t) := on_update (fst st) m in
       (c, if t then S (snd st) else snd st))
    ms (update_count_, O).

End MarketSubscriber.

(** ** The Rust side's lookup (listings of the architecture guide) *)

Module RustSide.

(** [pub enum ActorRef { Local { .. name }, Remote { .. }, Cpp { target, sender, send_fn } }],
    as far as the lookup builds it. *)
Inductive ActorRef :=
| Local (name : string)
| Cpp (target sender : string).

(** A call that crosses to the C++ side. *)
Inductive CppCall :=
| CppExists (name : string)
| CppSend (target sender : string) (msg_type : Z).

Section Lookup.

(** The Rust manager's own [get_ref] and the peer's [cpp_actor_exists]. *)
Variable manager_get_ref : string -> option ActorRef.
Variable cpp_actor_exists : string -> bool.

(** [pub fn get_actor_ref(name: &str, sender: &str) -> Option<ActorRef>]. *)
Definition get_actor_ref (name sender : string) : option ActorRef * list CppCall :=
  match manager_get_ref name with
  | Some ref_ => (Some ref_, [])
  | None =>
      if cpp_actor_exists name
      then (Some (Cpp name sender), [CppExists name])
      else (None, [CppExists name])
  end.

(** The lazy lookup of a subscriber:
[[
    if self.publisher.is_none() {
        self.publisher = get_actor_ref("cpp_publisher", "rust_subscriber");
    }
    self.publisher.clone()
]]
    The member after the call, the value returned, the calls issued. *)
Definition get_publisher (publisher : option ActorRef)
  : option ActorRef * option ActorRef * list CppCall :=
  match publisher with
  | Some r => (Some r, Some r, [])
  | None =>
      let '(r, calls) := get_actor_ref "cpp_publisher" "rust_subscriber" in
      (r, r, calls)
  end.

End Lookup.

(** [ActorRef::send] for the [Cpp] variant: [send_fn(target, sender, msg)],
    which passes the id of the message on. A [Local] send stays on the Rust
    side. *)
Definition send (r : ActorRef) (message_id : Z) : list CppCall :=
  match r with
  | Cpp target sender => [CppSend target sender message_id]
  | Local _ => []
  end.

End RustSide.

(** ** Invariants stated below *)

Module Inv.

(** No subscriber of [PriceFeed] lists a topic twice. *)
Definition topics_nodup (subs : gmap string PriceFeed.SubscriberInfo) : Prop :=
  map_Forall (fun _ info => NoDup (PriceFeed.topics info)) subs.

End Inv.

(** * Properties *)

(** ** Facts about C strings and fixed buffers *)

Section CStrFacts.
Import CStr.

Lemma until_nul_nul_free l : nul_free l -> until_nul l = l.
Proof.
  induction 1 as [|c l Hc _ IH]; simpl; [reflexivity|].
  rewrite Hc, IH. reflexivity.
Qed.

Lemma until_nul_app_nul l r : nul_free l -> until_nul (l ++ NUL :: r) = l.
Proof.
  induction 1 as [|c l Hc _ IH]; simpl; [reflexivity|].
  rewrite Hc, IH. reflexivity.
Qed.


Lemma until_nul_length l : (length (until_nul l) <= length l)%nat.
Proof.
  induction l as [|c l IH]; simpl; [lia|].
  destruct (is_nul c); simpl; lia.
Qed.


Lemma nul_free_firstn n l : nul_free l -> nul_free (firstn n l).
Proof. unfold nul_free. intros H. apply Forall_take. exact H. Qed.

Lemma length_list_ascii_of_string s :
  length (list_ascii_of_string s) = String.length s.
Proof. induction s as [|c s IH]; simpl; [reflexivity|]. now rewrite IH. Qed.

Lemma length_string_of_list_ascii l :
  String.length (string_of_list_ascii l) = length l.
Proof. induction l as [|c l IH]; simpl; [reflexivity|]. now rewrite IH. Qed.

Lemma strncpy_length dest src n :
  (n <= length dest)%nat -> length (strncpy dest src n) = length dest.
Proof.
  intros Hn. unfold strncpy.
  rewrite !length_app, repeat_length, length_skipn, length_firstn. lia.
Qed.

Lemma strncpy_tail dest src n : skipn n (strncpy dest src n) = skipn n dest.
Proof.
  unfold strncpy. rewrite app_assoc.
  apply drop_app_length'.
  rewrite length_app, repeat_length, length_firstn. lia.
Qed.

Lemma strncpy_long_prefix dest src n :
  nul_free src -> (n <= length src)%nat ->
  firstn n (strncpy dest src n) = firstn n src.
Proof.
  intros Hs Hn. unfold strncpy. rewrite (until_nul_nul_free _ Hs).
  rewrite length_firstn, Nat.min_l by lia. rewrite Nat.sub_diag. simpl.
  apply take_app_length'. rewrite length_firstn. lia.
Qed.

Lemma skipn_repeat {A : Type} (x : A) n m :
  skipn n (repeat x m) = repeat x (m - n).
Proof.
  revert m. induction n as [|n IH]; intros m.
  - rewrite Nat.sub_0_r. reflexivity.
  - destruct m as [|m]; simpl; [reflexivity|]. apply IH.
Qed.

End CStrFacts.

(** ** The message ids *)

(** C8. Every message type declared in [interop_messages.h] has an id of at
    least 1000, the declared ids are pairwise distinct, the schema lists every
    type, and no declared id lies below 1000 (the range left to control
    messages). *)
Theorem interop_ids_at_least_1000_and_distinct :
  (forall t : Schema.MsgType, Schema.FIRST_INTEROP_ID <= Schema.message_id t)
  /\ NoDup Schema.registered_ids
  /\ (forall t : Schema.MsgType, In t Schema.interop_schema)
  /\ Forall (fun id => (id <? Schema.FIRST_INTEROP_ID) = false) Schema.registered_ids
  /\ Schema.registered_ids = [1000; 1001; 1002; 1003; 1010; 1011; 1012; 1013].
Proof.
  split; [|split; [|split; [|split]]].
  - intros t. destruct t; unfold Schema.FIRST_INTEROP_ID; simpl; lia.
  - unfold Schema.registered_ids; simpl.
    repeat (apply NoDup_cons_2;
            [intros Hin; rewrite ?elem_of_cons, elem_of_nil in Hin; lia|]).
    apply NoDup_nil_2.
  - intros t. destruct t; simpl; tauto.
  - unfold Schema.registered_ids; simpl. repeat constructor.
  - reflexivity.
Qed.

(** Distinct message types have distinct ids. *)
Lemma message_id_inj t1 t2 : Schema.message_id t1 = Schema.message_id t2 -> t1 = t2.
Proof. destruct t1, t2; simpl; intros H; try reflexivity; discriminate H. Qed.

(** An id names the type that declares it, and no other id names a type. *)
Lemma type_of_id_message_id t : Schema.type_of_id (Schema.message_id t) = Some t.
Proof. destruct t; reflexivity. Qed.

Lemma type_of_id_Some id t : Schema.type_of_id id = Some t -> Schema.message_id t = id.
Proof.
  unfold Schema.type_of_id. intros H. apply find_some in H as [_ H].
  apply Z.eqb_eq in H. exact H.
Qed.

(** ** The codec round trip *)

Section CodecFacts.
Import CStr Codec.

Lemma copy_array_exact {A : Type} (n : nat) (pad : A) (a : list A) :
  length a = n -> copy_array n pad a = a.
Proof.
  intros <-. unfold copy_array.
  rewrite firstn_all, Nat.sub_diag. simpl. apply app_nil_r.
Qed.

Lemma copy_array_length {A : Type} (n : nat) (pad : A) (a : list A) :
  length (copy_array n pad a) = n.
Proof.
  unfold copy_array. rewrite length_app, length_firstn, repeat_length. lia.
Qed.

Lemma array_fits_length {A : Type} (n : nat) (ok : A -> bool) (a : list A) :
  array_fits n ok a = true -> length a = n.
Proof.
  unfold array_fits. intros H. apply andb_true_iff in H as [H _].
  apply Nat.eqb_eq in H. exact H.
Qed.

Lemma copy_array_round_trip {A : Type} (n : nat) (pad : A) (ok : A -> bool) (a : list A) :
  array_fits n ok a = true -> copy_array n pad (copy_array n pad a) = a.
Proof.
  intros H. apply array_fits_length in H.
  rewrite (copy_array_exact n pad a H). apply copy_array_exact, H.
Qed.

Lemma bool_round_trip b : bool_from_c (bool_to_c b) = b.
Proof. destruct b; reflexivity. Qed.

(** The encoded string: the stored characters, then NUL up to the capacity. *)
Lemma string_to_c_data_fits s :
  (String.length s <= Schema.INTEROP_STRING_MAX)%nat ->
  Wire.data (string_to_c s)
  = list_ascii_of_string s
    ++ repeat NUL (Schema.INTEROP_STRING_MAX - String.length s).
Proof.
  intros H. unfold string_to_c. cbn [Wire.data].
  rewrite length_list_ascii_of_string.
  destruct (Nat.leb_spec (String.length s) Schema.INTEROP_STRING_MAX) as [_|Hgt];
    [|lia].
  unfold std_copy, Fields.zero_array. f_equal.
  rewrite skipn_repeat, length_list_ascii_of_string. reflexivity.
Qed.

Lemma string_to_c_data_long s :
  (Schema.INTEROP_STRING_MAX < String.length s)%nat ->
  Wire.data (string_to_c s)
  = firstn (Schema.INTEROP_STRING_MAX - 1) (list_ascii_of_string s) ++ [NUL].
Proof.
  intros H. unfold string_to_c. cbn [Wire.data].
  rewrite length_list_ascii_of_string.
  destruct (Nat.leb_spec (String.length s) Schema.INTEROP_STRING_MAX) as [Hle|_];
    [lia|].
  unfold std_copy, Fields.zero_array. f_equal.
  rewrite skipn_repeat, length_firstn, length_list_ascii_of_string.
  unfold Schema.INTEROP_STRING_MAX in *.
  replace (64 - Nat.min (64 - 1) (String.length s))%nat with 1%nat by lia.
  reflexivity.
Qed.

(** Away from the boundary length N the modelled encoder is the fill of
    [tests/test_ffi.cpp] applied to a zeroed field; at exactly N characters
    the test's fill keeps N - 1 of them where the spec's law keeps all. *)
Lemma string_to_c_as_test_fill s :
  nul_free (list_ascii_of_string s) ->
  String.length s <> Schema.INTEROP_STRING_MAX ->
  string_to_c s
  = Fields.set_request_symbol
      {| Wire.data := Fields.zero_array Schema.INTEROP_STRING_MAX; Wire.len := 0 |}
      (list_ascii_of_string s).
Proof.
  intros Hs Hne. unfold string_to_c, Fields.set_request_symbol. cbn [Wire.data].
  unfold strlen, strncpy, std_copy, Fields.zero_array.
  rewrite (until_nul_nul_free _ Hs). f_equal.
  rewrite length_list_ascii_of_string.
  destruct (Nat.leb_spec (String.length s) Schema.INTEROP_STRING_MAX) as [Hle|Hgt].
  - rewrite (firstn_all2 (n := (Schema.INTEROP_STRING_MAX - 1)%nat))
      by (rewrite length_list_ascii_of_string; lia).
    f_equal. rewrite !skipn_repeat, length_list_ascii_of_string.
    rewrite <- repeat_app. f_equal. unfold Schema.INTEROP_STRING_MAX in *. lia.
  - f_equal. rewrite !skipn_repeat, length_firstn. 
    rewrite <- repeat_app. f_equal. unfold Schema.INTEROP_STRING_MAX. lia.
Qed.

Lemma string_to_c_data_length s :
  length (Wire.data (string_to_c s)) = Schema.INTEROP_STRING_MAX.
Proof.
  destruct (Nat.leb_spec (String.length s) Schema.INTEROP_STRING_MAX) as [Hle|Hgt].
  - rewrite (string_to_c_data_fits s Hle), length_app, repeat_length,
      length_list_ascii_of_string. lia.
  - rewrite (string_to_c_data_long s Hgt), length_app, length_firstn,
      length_list_ascii_of_string.
    unfold Schema.INTEROP_STRING_MAX in *. simpl length. lia.
Qed.

Lemma string_to_c_len s :
  Z.of_nat (String.length s) < 2 ^ 32 ->
  Wire.len (string_to_c s) = Z.of_nat (String.length s).
Proof.
  intros H. unfold string_to_c, Num.to_uint32. cbn [Wire.len].
  rewrite length_list_ascii_of_string. apply Z.mod_small. lia.
Qed.

Lemma string_round_trip s :
  string_fits s = true -> string_from_c (string_to_c s) = s.
Proof.
  unfold string_fits. intros H. apply Nat.leb_le in H.
  assert (H64 : (String.length s <= 64)%nat) by exact H.
  unfold string_from_c, string_of_bytes.
  rewrite string_to_c_len by (change (2 ^ 32) with 4294967296; lia).
  destruct (Z.leb_spec (Z.of_nat (String.length s))
              (Z.of_nat Schema.INTEROP_STRING_MAX)) as [_|Hgt]; [|lia].
  rewrite Nat2Z.id, (string_to_c_data_fits s H).
  rewrite <- (length_list_ascii_of_string s) at 1.
  rewrite take_app_length. apply string_of_list_ascii_of_string.
Qed.

(** The model meets the spec's truncation law as well: a string longer than
    the capacity N decodes to its first N - 1 characters, and the reported
    length is the original one. *)
Lemma string_truncation_law s :
  (Schema.INTEROP_STRING_MAX < String.length s)%nat ->
  Z.of_nat (String.length s) < 2 ^ 32 ->
  string_from_c (string_to_c s)
  = string_of_list_ascii
      (firstn (Schema.INTEROP_STRING_MAX - 1) (list_ascii_of_string s))
  /\ String.length (string_from_c (string_to_c s))
     = (Schema.INTEROP_STRING_MAX - 1)%nat
  /\ Wire.len (string_to_c s) = Z.of_nat (String.length s)
  /\ Z.of_nat Schema.INTEROP_STRING_MAX <= Wire.len (string_to_c s).
Proof.
  intros Hlong H32.
  assert (Hd : string_from_c (string_to_c s)
               = string_of_list_ascii
                   (firstn (Schema.INTEROP_STRING_MAX - 1) (list_ascii_of_string s))).
  { unfold string_from_c, string_of_bytes.
    rewrite (string_to_c_len s H32).
    destruct (Z.leb_spec (Z.of_nat (String.length s))
                (Z.of_nat Schema.INTEROP_STRING_MAX)) as [Hle|_]; [lia|].
    rewrite (string_to_c_data_long s Hlong). f_equal.
    assert (Hl : length (firstn (Schema.INTEROP_STRING_MAX - 1) (list_ascii_of_string s))
                 = (Schema.INTEROP_STRING_MAX - 1)%nat)
      by (rewrite length_firstn, length_list_ascii_of_string; lia).
    rewrite <- Hl at 1. apply take_app_length. }
  split; [exact Hd|]. split.
  - rewrite Hd, <- (length_list_ascii_of_string (string_of_list_ascii _)),
      list_ascii_of_string_of_list_ascii, length_firstn, length_list_ascii_of_string.
    lia.
  - rewrite (string_to_c_len s H32). split; [reflexivity | lia].
Qed.

Lemma Ping_round_trip p : from_c_struct_Ping (to_c_struct_Ping p) = p.
Proof. destruct p; reflexivity. Qed.

Lemma Pong_round_trip p : from_c_struct_Pong (to_c_struct_Pong p) = p.
Proof. destruct p; reflexivity. Qed.

Lemma DataRequest_round_trip p :
  string_fits (msg.DataRequest_symbol p) = true ->
  from_c_struct_DataRequest (to_c_struct_DataRequest p) = p.
Proof.
  destruct p as [id sym]; cbn [msg.DataRequest_symbol]; intros H.
  unfold from_c_struct_DataRequest, to_c_struct_DataRequest.
  cbn [Wire.DataRequest_request_id Wire.DataRequest_symbol
       msg.DataRequest_request_id msg.DataRequest_symbol].
  rewrite (string_round_trip sym H). reflexivity.
Qed.

Lemma DataResponse_round_trip p :
  from_c_struct_DataResponse (to_c_struct_DataResponse p) = p.
Proof.
  destruct p as [id v f]. unfold from_c_struct_DataResponse, to_c_struct_DataResponse.
  cbn [Wire.DataResponse_request_id Wire.DataResponse_value Wire.DataResponse_found
       msg.DataResponse_request_id msg.DataResponse_value msg.DataResponse_found].
  rewrite bool_round_trip. reflexivity.
Qed.

Lemma Subscribe_round_trip p :
  array_fits Schema.TOPIC_SIZE char_ok (msg.Subscribe_topic p) = true ->
  from_c_struct_Subscribe (to_c_struct_Subscribe p) = p.
Proof.
  destruct p as [t]; cbn [msg.Subscribe_topic]; intros H.
  unfold from_c_struct_Subscribe, to_c_struct_Subscribe.
  cbn [Wire.Subscribe_topic msg.Subscribe_topic].
  rewrite (copy_array_round_trip _ _ _ _ H). reflexivity.
Qed.

Lemma Unsubscribe_round_trip p :
  array_fits Schema.TOPIC_SIZE char_ok (msg.Unsubscribe_topic p) = true ->
  from_c_struct_Unsubscribe (to_c_struct_Unsubscribe p) = p.
Proof.
  destruct p as [t]; cbn [msg.Unsubscribe_topic]; intros H.
  unfold from_c_struct_Unsubscribe, to_c_struct_Unsubscribe.
  cbn [Wire.Unsubscribe_topic msg.Unsubscribe_topic].
  rewrite (copy_array_round_trip _ _ _ _ H). reflexivity.
Qed.

Lemma MarketUpdate_round_trip p :
  array_fits Schema.SYMBOL_SIZE char_ok (msg.MarketUpdate_symbol p) = true ->
  from_c_struct_MarketUpdate (to_c_struct_MarketUpdate p) = p.
Proof.
  destruct p as [sy pr ts vo]; cbn [msg.MarketUpdate_symbol]; intros H.
  unfold from_c_struct_MarketUpdate, to_c_struct_MarketUpdate.
  cbn [Wire.MarketUpdate_symbol Wire.MarketUpdate_price Wire.MarketUpdate_timestamp
       Wire.MarketUpdate_volume msg.MarketUpdate_symbol msg.MarketUpdate_price
       msg.MarketUpdate_timestamp msg.MarketUpdate_volume].
  rewrite (copy_array_round_trip _ _ _ _ H). reflexivity.
Qed.

Lemma MarketDepth_round_trip p :
  array_fits Schema.SYMBOL_SIZE char_ok (msg.MarketDepth_symbol p) = true ->
  array_fits Schema.DEPTH_LEVELS Num.in_double (msg.MarketDepth_bid_prices p) = true ->
  array_fits Schema.DEPTH_LEVELS Num.in_double (msg.MarketDepth_ask_prices p) = true ->
  array_fits Schema.DEPTH_LEVELS Num.in_int32 (msg.MarketDepth_bid_sizes p) = true ->
  array_fits Schema.DEPTH_LEVELS Num.in_int32 (msg.MarketDepth_ask_sizes p) = true ->
  from_c_struct_MarketDepth (to_c_struct_MarketDepth p) = p.
Proof.
  destruct p as [sy nl bp ap bs az].
  cbn [msg.MarketDepth_symbol msg.MarketDepth_bid_prices msg.MarketDepth_ask_prices
       msg.MarketDepth_bid_sizes msg.MarketDepth_ask_sizes].
  intros H1 H2 H3 H4 H5.
  unfold from_c_struct_MarketDepth, to_c_struct_MarketDepth.
  cbn [Wire.MarketDepth_symbol Wire.MarketDepth_num_levels Wire.MarketDepth_bid_prices
       Wire.MarketDepth_ask_prices Wire.MarketDepth_bid_sizes Wire.MarketDepth_ask_sizes
       msg.MarketDepth_symbol msg.MarketDepth_num_levels msg.MarketDepth_bid_prices
       msg.MarketDepth_ask_prices msg.MarketDepth_bid_sizes msg.MarketDepth_ask_sizes].
  rewrite (copy_array_round_trip _ _ _ _ H1), (copy_array_round_trip _ _ _ _ H2),
    (copy_array_round_trip _ _ _ _ H3), (copy_array_round_trip _ _ _ _ H4),
    (copy_array_round_trip _ _ _ _ H5).
  reflexivity.
Qed.

End CodecFacts.

(** C1. For every message type of the schema and every value [m] whose fields
    are within their declared bounds (integers in the range of their type,
    arrays of their declared size, the string of at most the declared capacity
    [INTEROP_STRING_MAX] = 64 characters), decoding the encoding of [m] gives
    back [m]. *)
Theorem from_c_struct_to_c_struct :
  forall m : msg.InteropMessage,
    Codec.within_bounds m = true ->
    Codec.from_c_struct (Codec.to_c_struct m) = m.
Proof.
  intros m Hb. destruct m as [p|p|p|p|p|p|p|p]; cbn [Codec.to_c_struct Codec.from_c_struct];
    f_equal; cbn [Codec.within_bounds] in Hb.
  - apply Ping_round_trip.
  - apply Pong_round_trip.
  - apply andb_true_iff in Hb as [_ Hs]. apply DataRequest_round_trip, Hs.
  - apply DataResponse_round_trip.
  - apply Subscribe_round_trip, Hb.
  - apply Unsubscribe_round_trip, Hb.
  - do 3 (apply andb_true_iff in Hb as [Hb _]). apply MarketUpdate_round_trip, Hb.
  - apply andb_true_iff in Hb as [Hb H6]. apply andb_true_iff in Hb as [Hb H5].
    apply andb_true_iff in Hb as [Hb H4]. apply andb_true_iff in Hb as [Hb H3].
    apply andb_true_iff in Hb as [H1 _].
    apply MarketDepth_round_trip; assumption.
Qed.

(** An instance: a request whose symbol has the 64 characters of the
    declared capacity. *)
Lemma from_c_struct_to_c_struct_witness :
  Codec.from_c_struct
    (Codec.to_c_struct
       (msg.MDataRequest
          {| msg.DataRequest_request_id := 123;
             msg.DataRequest_symbol :=
               "AAPL.AAPL.AAPL.AAPL.AAPL.AAPL.AAPL.AAPL.AAPL.AAPL.AAPL.AAPL.AAPL" |}))
  = msg.MDataRequest
      {| msg.DataRequest_request_id := 123;
         msg.DataRequest_symbol :=
           "AAPL.AAPL.AAPL.AAPL.AAPL.AAPL.AAPL.AAPL.AAPL.AAPL.AAPL.AAPL.AAPL" |}.
Proof. apply from_c_struct_to_c_struct. vm_compute. reflexivity. Defined.

(** ** Truncation of long strings *)

Section TruncationFacts.
Import CStr Fields.


(** [send_update] never changes the size of the array, whatever the symbol. *)
Lemma copy_symbol_length update_symbol symbol :
  (1 <= length update_symbol)%nat ->
  Z.of_nat (length update_symbol) <= 2 ^ 64 ->
  length (copy_symbol update_symbol symbol) = length update_symbol.
Proof.
  intros H1 H2. unfold copy_symbol, std_copy, std_fill, Num.to_size_t.
  rewrite (Z.mod_small (Z.of_nat (length update_symbol) - 1)) by lia.
  rewrite length_app, skipn_repeat, repeat_length, !length_firstn.
  lia.
Qed.


End TruncationFacts.




(** ** Reference resolution *)

(** C3. [InteropManager::get_ref] consults the caller's own table first and
    returns a local reference when the name is there, without any bridge
    call, whatever the peer would answer (so a name registered on both sides
    resolves to the local actor). Only when the name is absent locally is the
    peer's [exists] query issued, once. When the peer has the name the
    reference is the cross-runtime one; when neither side has it the call
    ends with the "Actor not found" exception handed to the caller, and not
    with the end of the process. *)
Theorem get_ref_local_first :
  forall (rust_actor_exists : string -> Z)
         (actors : gmap string Actors.Actor) (n : string),
    (forall a, actors !! n = Some a ->
       InteropManager.get_ref rust_actor_exists actors n
       = (Actors.Returned (Actors.LocalActorRef a), []))
    /\ (forall a, actors !! n = Some a -> rust_actor_exists (CStr.c_str n) <> 0 ->
          fst (InteropManager.get_ref rust_actor_exists actors n)
          = Actors.Returned (Actors.LocalActorRef a))
    /\ (actors !! n = None -> rust_actor_exists (CStr.c_str n) <> 0 ->
          InteropManager.get_ref rust_actor_exists actors n
          = (Actors.Returned
               (Actors.ToRust {| Actors.target_name_ := n; Actors.sender_name_ := "" |}),
             [Actors.Exists (CStr.c_str n)]))
    /\ (actors !! n = None -> rust_actor_exists (CStr.c_str n) = 0 ->
          InteropManager.get_ref rust_actor_exists actors n
          = (Actors.Thrown ("Actor not found: " ++ n)%string,
             [Actors.Exists (CStr.c_str n)])
          /\ fst (InteropManager.get_ref rust_actor_exists actors n)
             <> Actors.Terminated).
Proof.
  intros rae actors n.
  unfold InteropManager.get_ref, InteropManager.get_actor_by_name.
  split; [|split; [|split]].
  - intros a ->. reflexivity.
  - intros a -> _. reflexivity.
  - intros -> Hne. apply Z.eqb_neq in Hne. rewrite Hne. reflexivity.
  - intros -> He. rewrite He. simpl. split; [reflexivity|discriminate].
Qed.

(** Instances: a name managed on both sides, a name only the peer has, and a
    name nobody has. The peer here knows "rust_pong" and "shared". *)
Lemma get_ref_local_first_witness :
  InteropManager.get_ref
    (fun n => if String.eqb n "rust_pong" || String.eqb n "shared" then 1 else 0)
    (<["shared"%string := {| Actors.addr := 2; Actors.name := "shared" |}]>
       (<["cpp_ping"%string := {| Actors.addr := 1; Actors.name := "cpp_ping" |}]> ∅))
    "shared"
  = (Actors.Returned
       (Actors.LocalActorRef {| Actors.addr := 2; Actors.name := "shared" |}), [])
  /\ InteropManager.get_ref
       (fun n => if String.eqb n "rust_pong" || String.eqb n "shared" then 1 else 0)
       (<["shared"%string := {| Actors.addr := 2; Actors.name := "shared" |}]>
          (<["cpp_ping"%string := {| Actors.addr := 1; Actors.name := "cpp_ping" |}]> ∅))
       "rust_pong"
     = (Actors.Returned
          (Actors.ToRust {| Actors.target_name_ := "rust_pong"; Actors.sender_name_ := "" |}),
        [Actors.Exists "rust_pong"])
  /\ InteropManager.get_ref
       (fun n => if String.eqb n "rust_pong" || String.eqb n "shared" then 1 else 0)
       (<["shared"%string := {| Actors.addr := 2; Actors.name := "shared" |}]>
          (<["cpp_ping"%string := {| Actors.addr := 1; Actors.name := "cpp_ping" |}]> ∅))
       "nobody"
     = (Actors.Thrown "Actor not found: nobody", [Actors.Exists "nobody"]).
Proof.
  split; [|split].
  - apply (proj1 (get_ref_local_first _ _ "shared"%string)). reflexivity.
  - apply (proj1 (proj2 (proj2 (get_ref_local_first _ _ "rust_pong"%string)))).
    + reflexivity.
    + vm_compute. discriminate.
  - apply (proj2 (proj2 (proj2 (get_ref_local_first _ _ "nobody"%string)))).
    + reflexivity.
    + reflexivity.
Defined.

(** Inside a [noexcept] handler the same failure is not handed any further:
    [PingActor::on_start] ends the process when "rust_pong" is nowhere. *)
Remark on_start_unresolved_terminates :
  forall (rust_actor_exists : string -> Z) (actors : gmap string Actors.Actor),
    actors !! "rust_pong"%string = None ->
    rust_actor_exists "rust_pong"%string = 0 ->
    InteropManager.on_start_resolve rust_actor_exists actors = Actors.Terminated.
Proof.
  intros rae actors Hl Hp.
  unfold InteropManager.on_start_resolve, InteropManager.get_ref,
    InteropManager.get_actor_by_name.
  rewrite Hl. change (CStr.c_str "rust_pong") with "rust_pong"%string.
  rewrite Hp. reflexivity.
Qed.

(** ** [RustActorRef::send] *)

Section SendFacts.
Import Actors RustActorRef.

(** The ids of the case labels are the ids of the schema. *)
Lemma registered_ids_cases id :
  existsb (Z.eqb id) Schema.registered_ids = false ->
  id <> 1000 /\ id <> 1001 /\ id <> 1002 /\ id <> 1003
  /\ id <> 1010 /\ id <> 1011 /\ id <> 1012 /\ id <> 1013.
Proof.
  unfold Schema.registered_ids. simpl. intros H.
  repeat (apply orb_false_iff in H as [?%Z.eqb_neq H]).
  repeat split; assumption.
Qed.

Lemma not_In_registered id :
  ~ In id Schema.registered_ids -> existsb (Z.eqb id) Schema.registered_ids = false.
Proof.
  intros H. destruct (existsb (Z.eqb id) Schema.registered_ids) eqn:E; [|reflexivity].
  exfalso. apply H. apply existsb_exists in E as (x & Hx & Hex).
  apply Z.eqb_eq in Hex. subst x. exact Hx.
Qed.

(** The default branch: an id that is none of the case labels. *)
Lemma dispatch_default self m :
  existsb (Z.eqb (msg.get_message_id m)) Schema.registered_ids = false ->
  dispatch self m = Some [].
Proof.
  intros H. apply registered_ids_cases in H.
  unfold dispatch. destruct (msg.get_message_id m) as [|p|p]; try reflexivity.
  do 10 (try (destruct p as [p|p|]; try reflexivity)); lia.
Qed.

(** A message of a schema class takes the branch of its class: one bridge
    call, with the id of the class and the encoded message. *)
Lemma dispatch_interop self i :
  dispatch self (msg.Interop i)
  = Some [call_rust_actor_send self (Schema.message_id (msg.class_of i))
            (Codec.to_c_struct i)].
Proof. destruct i; reflexivity. Qed.

End SendFacts.

(** C5. A message whose id is none of the registered ids is dropped by
    [RustActorRef::send]: no [rust_actor_send] (indeed no bridge call at all)
    is made for it; the only thing the call does is to delete the message. *)
Theorem unknown_id_is_dropped :
  forall (self : Actors.RustActorRef) (m : positive) (sender : option Actors.Actor)
         (h : gmap positive msg.Message) (obj : msg.Message),
    h !! m = Some obj ->
    ~ In (msg.get_message_id obj) Schema.registered_ids ->
    RustActorRef.send self m sender h = Some (delete m h, [RustActorRef.Delete m])
    /\ (forall h' evs, RustActorRef.send self m sender h = Some (h', evs) ->
                       RustActorRef.bridge_calls evs = []).
Proof.
  intros self m sender h obj Hm Hid.
  assert (E : RustActorRef.send self m sender h = Some (delete m h, [RustActorRef.Delete m])).
  { unfold RustActorRef.send. rewrite Hm. simpl.
    rewrite (dispatch_default self obj (not_In_registered _ Hid)). reflexivity. }
  split; [exact E|].
  intros h' evs He. rewrite E in He. injection He as _ <-. reflexivity.
Qed.

(** An instance: a message of a class outside the schema, with an id below
    1000, sent through a reference to "rust_pong". *)
Lemma unknown_id_is_dropped_witness :
  RustActorRef.send
    {| Actors.target_name_ := "rust_pong"; Actors.sender_name_ := "cpp_ping" |}
    5 None (<[5%positive := msg.Foreign 6]> ∅)
  = Some (delete 5%positive (<[5%positive := msg.Foreign 6]> ∅), [RustActorRef.Delete 5]).
Proof.
  apply (unknown_id_is_dropped _ 5%positive None _ (msg.Foreign 6)).
  - reflexivity.
  - simpl. intros H. repeat (destruct H as [H|H]; [discriminate H|]). exact H.
Defined.

(** C6. In every branch of the dispatch, the eight registered ids and the
    default branch alike, [RustActorRef::send] deletes the message exactly
    once, as its last action: after the call the message is no longer live
    (the caller keeps nothing), the rest of the store is untouched, and at
    most one bridge call was made before the deletion. *)
Theorem send_deletes_exactly_once :
  forall (self : Actors.RustActorRef) (m : positive) (sender : option Actors.Actor)
         (h : gmap positive msg.Message) (obj : msg.Message),
    h !! m = Some obj ->
    RustActorRef.well_typed obj = true ->
    exists evs,
      RustActorRef.send self m sender h = Some (delete m h, evs)
      /\ RustActorRef.deletions m evs = 1%nat
      /\ last evs = Some (RustActorRef.Delete m)
      /\ delete m h !! m = None
      /\ (forall q, q <> m -> delete m h !! q = h !! q)
      /\ (length (RustActorRef.bridge_calls evs) <= 1)%nat.
Proof.
  intros self m sender h obj Hm Hwt.
  assert (Hd : exists calls,
             RustActorRef.dispatch self obj = Some calls
             /\ RustActorRef.deletions m calls = 0%nat
             /\ (length (RustActorRef.bridge_calls calls) <= 1)%nat
             /\ RustActorRef.bridge_calls (calls ++ [RustActorRef.Delete m])
                = RustActorRef.bridge_calls calls).
  { destruct obj as [i|id].
    - eexists. rewrite dispatch_interop. split; [reflexivity|].
      split; [reflexivity|]. split; [simpl; lia|reflexivity].
    - exists []. split; [apply dispatch_default; simpl in Hwt |- *|].
      + apply negb_true_iff in Hwt. exact Hwt.
      + split; [reflexivity|]. split; [simpl; lia|reflexivity]. }
  destruct Hd as (calls & Hc & Hz & Hb & Hbc).
  exists (calls ++ [RustActorRef.Delete m]).
  split; [unfold RustActorRef.send; rewrite Hm; simpl; rewrite Hc; reflexivity|].
  split.
  { unfold RustActorRef.deletions in *. rewrite List.filter_app, length_app, Hz.
    simpl. rewrite Pos.eqb_refl. reflexivity. }
  split; [apply last_snoc|].
  split; [apply lookup_delete_eq|].
  split; [intros q Hq; apply lookup_delete_ne; congruence|].
  rewrite Hbc. exact Hb.
Qed.

(** An instance: a Ping sent through a reference to "rust_pong"; one bridge
    call with id 1000, then the deletion. *)
Lemma send_deletes_exactly_once_witness :
  exists evs,
    RustActorRef.send
      {| Actors.target_name_ := "rust_pong"; Actors.sender_name_ := "cpp_ping" |}
      7 (Some {| Actors.addr := 1; Actors.name := "cpp_ping" |})
      (<[7%positive := msg.Interop (msg.MPing {| msg.Ping_count := 1 |})]> ∅)
    = Some (delete 7%positive
              (<[7%positive := msg.Interop (msg.MPing {| msg.Ping_count := 1 |})]> ∅),
            evs)
    /\ RustActorRef.deletions 7 evs = 1%nat.
Proof.
  assert (Hm : (<[7%positive := msg.Interop (msg.MPing {| msg.Ping_count := 1 |})]> ∅
                : gmap positive msg.Message) !! 7%positive
               = Some (msg.Interop (msg.MPing {| msg.Ping_count := 1 |})))
    by reflexivity.
  destruct (send_deletes_exactly_once
              {| Actors.target_name_ := "rust_pong"; Actors.sender_name_ := "cpp_ping" |}
              7%positive (Some {| Actors.addr := 1; Actors.name := "cpp_ping" |})
              _ _ Hm eq_refl)
    as (evs & H1 & H2 & _).
  exists evs. split; [exact H1|exact H2].
Defined.

(** ** The subscriber table of [PriceFeed] *)

Section PriceFeedFacts.
Import Actors PriceFeed.

(** The table after [on_subscribe]: only the entry of the sender is written. *)
Lemma on_subscribe_subscribers env self m sender :
  subscribers_ (fst (on_subscribe env self m (Some sender)))
  = <[name sender :=
        subscribed (subscribers_ self !! name sender) sender
          (Fields.string_of_char_array (msg.Subscribe_topic m))]>
      (subscribers_ self).
Proof.
  unfold on_subscribe, subscribed, entry. cbn [fst subscribers_].
  destruct (subscribers_ self !! name sender) as [info|] eqn:E.
  - rewrite E. cbn [default]. reflexivity.
  - rewrite lookup_insert_eq. cbn [default topics ref].
    rewrite insert_insert_eq.
    case_decide as Hin; [|reflexivity].
    apply elem_of_nil in Hin. contradiction.
Qed.

Lemma on_subscribe_prices env self m r :
  prices_ (fst (on_subscribe env self m r)) = prices_ self.
Proof. unfold on_subscribe. destruct r; reflexivity. Qed.

Lemma subscribed_has_topic old sender topic : topic ∈ topics (subscribed old sender topic).
Proof.
  unfold subscribed. destruct old as [info|]; cbn [topics].
  - destruct (decide (topic ∈ topics info)) as [Hin|_]; [exact Hin|].
    cbn [topics]. apply elem_of_app. right. apply list_elem_of_singleton. reflexivity.
  - apply list_elem_of_singleton. reflexivity.
Qed.

Lemma subscribed_again old sender topic :
  subscribed (Some (subscribed old sender topic)) sender topic = subscribed old sender topic.
Proof.
  unfold subscribed at 1.
  destruct (decide (topic ∈ topics (subscribed old sender topic))) as [_|Hn];
    [reflexivity|].
  exfalso. apply Hn, subscribed_has_topic.
Qed.

Lemma on_subscribe_preserves env self m r :
  topics_nonempty (subscribers_ self) ->
  topics_nonempty (subscribers_ (fst (on_subscribe env self m r))).
Proof.
  intros Hinv. destruct r as [sender|]; [|exact Hinv].
  rewrite on_subscribe_subscribers. unfold topics_nonempty.
  apply map_Forall_insert_2; [|exact Hinv].
  intros Hnil.
  pose proof (subscribed_has_topic (subscribers_ self !! name sender) sender
                (Fields.string_of_char_array (msg.Subscribe_topic m))) as Hin.
  rewrite Hnil in Hin. apply elem_of_nil in Hin. exact Hin.
Qed.

Lemma on_unsubscribe_preserves self m r :
  topics_nonempty (subscribers_ self) ->
  topics_nonempty (subscribers_ (on_unsubscribe self m r)).
Proof.
  intros Hinv. unfold on_unsubscribe. destruct r as [sender|]; [|exact Hinv].
  destruct (subscribers_ self !! name sender) as [info|] eqn:E; [|exact Hinv].
  destruct (filter _ (topics info)) as [|t ts] eqn:F; cbn [subscribers_].
  - unfold topics_nonempty. apply map_Forall_delete. exact Hinv.
  - unfold topics_nonempty. apply map_Forall_insert_2; [|exact Hinv].
    cbn [topics]. discriminate.
Qed.

Lemma handle_preserves env self d :
  topics_nonempty (subscribers_ self) ->
  topics_nonempty (subscribers_ (handle env self d)).
Proof.
  destruct d as [m r|m r]; cbn [handle].
  - apply on_subscribe_preserves.
  - apply on_unsubscribe_preserves.
Qed.

End PriceFeedFacts.

(** C9. The invariant "every entry of [subscribers_] has a non-empty topics
    list" is preserved by every handler invocation: by [on_subscribe], which
    writes the entry of the sender with the topic in it, by [on_unsubscribe],
    which erases the entry when removing the topic leaves no topic, and so by
    every sequence of deliveries; when the last topic goes the entry goes. *)
Theorem topics_nonempty_preserved :
  forall (self : PriceFeed.State),
    PriceFeed.topics_nonempty (PriceFeed.subscribers_ self) ->
    (forall env m r,
        PriceFeed.topics_nonempty
          (PriceFeed.subscribers_ (fst (PriceFeed.on_subscribe env self m r))))
    /\ (forall m r,
           PriceFeed.topics_nonempty
             (PriceFeed.subscribers_ (PriceFeed.on_unsubscribe self m r)))
    /\ (forall ds,
           PriceFeed.topics_nonempty (PriceFeed.subscribers_ (PriceFeed.run self ds)))
    /\ (forall m sender info,
           PriceFeed.subscribers_ self !! Actors.name sender = Some info ->
           filter (fun t => t ≠ Fields.string_of_char_array (msg.Unsubscribe_topic m))
                  (PriceFeed.topics info) = [] ->
           PriceFeed.subscribers_ (PriceFeed.on_unsubscribe self m (Some sender))
             !! Actors.name sender = None).
Proof.
  intros self Hinv. split; [|split; [|split]].
  - intros env m r. apply on_subscribe_preserves, Hinv.
  - intros m r. apply on_unsubscribe_preserves, Hinv.
  - intros ds. revert self Hinv. unfold PriceFeed.run.
    induction ds as [|[env d] ds IH]; intros self Hinv; [exact Hinv|].
    cbn [fold_left fst snd]. apply IH, handle_preserves, Hinv.
  - intros m sender info E F. unfold PriceFeed.on_unsubscribe.
    rewrite E, F. cbn [PriceFeed.subscribers_]. apply lookup_delete_eq.
Qed.

(** An instance: from the freshly constructed publisher, a Subscribe to "AAPL"
    followed by the matching Unsubscribe. *)
Lemma topics_nonempty_preserved_witness :
  PriceFeed.topics_nonempty
    (PriceFeed.subscribers_
       (PriceFeed.run PriceFeed.PriceFeed_new
          [({| PriceFeed.time_now := 1700000000; PriceFeed.rand_value := 12345 |},
            PriceFeed.DSubscribe
              {| msg.Subscribe_topic :=
                   Codec.copy_array Schema.TOPIC_SIZE CStr.NUL (list_ascii_of_string "AAPL") |}
              (Some {| Actors.addr := 9; Actors.name := "rust_price_monitor" |}));
           ({| PriceFeed.time_now := 1700000001; PriceFeed.rand_value := 54321 |},
            PriceFeed.DUnsubscribe
              {| msg.Unsubscribe_topic :=
                   Codec.copy_array Schema.TOPIC_SIZE CStr.NUL (list_ascii_of_string "AAPL") |}
              (Some {| Actors.addr := 9; Actors.name := "rust_price_monitor" |}))])).
Proof.
  apply (proj1 (proj2 (proj2 (topics_nonempty_preserved PriceFeed.PriceFeed_new
                                (map_Forall_empty _))))).
Defined.

(** C10. [on_subscribe] is idempotent on the subscriber table: delivering the
    same Subscribe from the same sender a second time (at whatever later time)
    leaves the publisher's state as the first delivery left it. A delivery
    writes the entry of the sender only: the entry is created when absent, and
    the topic is appended when it is not yet in the list of that subscriber. *)
Theorem on_subscribe_idempotent :
  forall (env1 env2 : PriceFeed.Env) (self : PriceFeed.State)
         (m : msg.Subscribe) (r : option Actors.Actor),
    fst (PriceFeed.on_subscribe env2 (fst (PriceFeed.on_subscribe env1 self m r)) m r)
    = fst (PriceFeed.on_subscribe env1 self m r)
    /\ (forall sender,
           PriceFeed.subscribers_ (fst (PriceFeed.on_subscribe env1 self m (Some sender)))
           = <[Actors.name sender :=
                 PriceFeed.subscribed (PriceFeed.subscribers_ self !! Actors.name sender) sender
                   (Fields.string_of_char_array (msg.Subscribe_topic m))]>
               (PriceFeed.subscribers_ self)).
Proof.
  intros env1 env2 self m r. split; [|intros sender; apply on_subscribe_subscribers].
  destruct r as [sender|]; [|reflexivity].
  pose proof (on_subscribe_subscribers env2
                (fst (PriceFeed.on_subscribe env1 self m (Some sender))) m sender) as H2.
  pose proof (on_subscribe_prices env2
                (fst (PriceFeed.on_subscribe env1 self m (Some sender))) m (Some sender)) as P2.
  pose proof (on_subscribe_subscribers env1 self m sender) as H1.
  rewrite H1 in H2. rewrite lookup_insert_eq, subscribed_again, insert_insert_eq in H2.
  rewrite <- H1 in H2.
  destruct (fst (PriceFeed.on_subscribe env2 _ m (Some sender))) as [s2 p2].
  destruct (fst (PriceFeed.on_subscribe env1 self m (Some sender))) as [s1 p1].
  cbn [PriceFeed.subscribers_ PriceFeed.prices_] in *. subst. reflexivity.
Qed.

(** ** The sources' own scenarios, run on the model *)

(** [tests/test_ffi.cpp], test 3: "AAPL" into an uninitialised request. *)
Example set_request_symbol_AAPL :
  Fields.set_request_symbol
    {| Wire.data := repeat "?"%char Schema.INTEROP_STRING_MAX; Wire.len := 99 |}
    (list_ascii_of_string "AAPL")
  = {| Wire.data :=
         list_ascii_of_string "AAPL" ++ repeat CStr.NUL 59 ++ ["?"%char];
       Wire.len := 4 |}
  /\ CStr.string_of_bytes
       (Wire.data
          (Fields.set_request_symbol
             {| Wire.data := repeat "?"%char Schema.INTEROP_STRING_MAX; Wire.len := 99 |}
             (list_ascii_of_string "AAPL")))
       4
     = "AAPL"%string.
Proof. split; vm_compute; reflexivity. Qed.

(** The end-to-end scenario: a Subscribe to "AAPL" reaches the freshly
    constructed publisher; the sender is recorded with that topic and one
    update with the initial price is sent to it. *)
Example on_subscribe_AAPL :
  PriceFeed.on_subscribe
    {| PriceFeed.time_now := 1700000000; PriceFeed.rand_value := 12345 |}
    PriceFeed.PriceFeed_new
    {| msg.Subscribe_topic :=
         Codec.copy_array Schema.TOPIC_SIZE CStr.NUL (list_ascii_of_string "AAPL") |}
    (Some {| Actors.addr := 9; Actors.name := "rust_price_monitor" |})
  = ({| PriceFeed.subscribers_ :=
          {["rust_price_monitor"%string :=
              {| PriceFeed.ref :=
                   Some (Actors.LocalActorRef
                           {| Actors.addr := 9; Actors.name := "rust_price_monitor" |});
                 PriceFeed.topics := ["AAPL"%string] |}]};
        PriceFeed.prices_ := PriceFeed.prices_ PriceFeed.PriceFeed_new |},
     [{| PriceFeed.sent_to :=
           Some (Actors.LocalActorRef
                   {| Actors.addr := 9; Actors.name := "rust_price_monitor" |});
         PriceFeed.sent_update :=
           {| msg.MarketUpdate_symbol :=
                list_ascii_of_string "AAPL" ++ repeat CStr.NUL 4;
              msg.MarketUpdate_price := 4639481672377565184;
              msg.MarketUpdate_timestamp := 1700000000000;
              msg.MarketUpdate_volume := 2345 |} |}]).
Proof. vm_compute. reflexivity. Qed.

(** Unsubscribing from the only topic erases the entry. *)
Example on_unsubscribe_last_topic :
  PriceFeed.subscribers_
    (PriceFeed.on_unsubscribe
       (fst (PriceFeed.on_subscribe
               {| PriceFeed.time_now := 1700000000; PriceFeed.rand_value := 12345 |}
               PriceFeed.PriceFeed_new
               {| msg.Subscribe_topic :=
                    Codec.copy_array Schema.TOPIC_SIZE CStr.NUL (list_ascii_of_string "AAPL") |}
               (Some {| Actors.addr := 9; Actors.name := "rust_price_monitor" |})))
       {| msg.Unsubscribe_topic :=
            Codec.copy_array Schema.TOPIC_SIZE CStr.NUL (list_ascii_of_string "AAPL") |}
       (Some {| Actors.addr := 9; Actors.name := "rust_price_monitor" |}))
  = ∅.
Proof. vm_compute. reflexivity. Qed.

(** The Ping branch of [RustActorRef::send]: one call with id 1000 and the
    encoded count, then the deletion. *)
Example send_Ping :
  RustActorRef.send
    {| Actors.target_name_ := "rust_pong"; Actors.sender_name_ := "" |}
    7 None (<[7%positive := msg.Interop (msg.MPing {| msg.Ping_count := 1 |})]> ∅)
  = Some (∅,
          [RustActorRef.Bridge
             (Actors.Send "rust_pong" None 1000 (Wire.SPing {| Wire.Ping_count := 1 |}));
           RustActorRef.Delete 7]).
Proof. vm_compute. reflexivity. Qed.

(** * Further properties of the sources *)

(** ** Fixed character fields *)

Section FieldFacts.
Import CStr Fields.

Lemma until_nul_is_nul_free l : nul_free (until_nul l).
Proof.
  unfold nul_free. induction l as [|c l IH]; simpl; [constructor|].
  destruct (is_nul c) eqn:E; constructor; assumption.
Qed.

Lemma until_nul_prefix l : exists rest, l = until_nul l ++ rest.
Proof.
  induction l as [|c l [rest IH]]; simpl; [exists []; reflexivity|].
  destruct (is_nul c).
  - exists (c :: l). reflexivity.
  - exists rest. simpl. f_equal. exact IH.
Qed.

Lemma until_nul_idem l : until_nul (until_nul l) = until_nul l.
Proof. apply until_nul_nul_free, until_nul_is_nul_free. Qed.

Lemma existsb_is_nul_nul_free l : nul_free l -> existsb is_nul l = false.
Proof.
  induction 1 as [|c l Hc _ IH]; simpl; [reflexivity|]. rewrite Hc, IH. reflexivity.
Qed.

Lemma nul_free_list_ascii_of_string_of l :
  list_ascii_of_string (string_of_list_ascii l) = l.
Proof. apply list_ascii_of_string_of_list_ascii. Qed.

(** The array [send_update] leaves, for any symbol: the first [N - 1]
    characters at most, then NUL up to [N] bytes. *)
Lemma copy_symbol_form update_symbol symbol :
  (1 <= length update_symbol)%nat ->
  Z.of_nat (length update_symbol) <= 2 ^ 64 ->
  copy_symbol update_symbol symbol
  = firstn (length update_symbol - 1) (list_ascii_of_string symbol)
    ++ repeat NUL (length update_symbol
                   - Nat.min (length update_symbol - 1) (String.length symbol)).
Proof.
  intros H1 H2. unfold copy_symbol, std_copy, std_fill, Num.to_size_t.
  rewrite length_list_ascii_of_string.
  rewrite (Z.mod_small (Z.of_nat (length update_symbol) - 1)) by lia.
  destruct (Z.min_spec (Z.of_nat (String.length symbol))
                       (Z.of_nat (length update_symbol) - 1)) as [[Hlt ->]|[Hge ->]].
  - rewrite Nat2Z.id.
    rewrite (firstn_all2 (n := String.length symbol))
      by (rewrite length_list_ascii_of_string; lia).
    rewrite (firstn_all2 (n := (length update_symbol - 1)%nat))
      by (rewrite length_list_ascii_of_string; lia).
    rewrite skipn_repeat, length_list_ascii_of_string.
    rewrite Nat.min_r by lia. reflexivity.
  - replace (Z.to_nat (Z.of_nat (length update_symbol) - 1))
      with (length update_symbol - 1)%nat by lia.
    rewrite skipn_repeat, length_firstn, length_list_ascii_of_string. reflexivity.
Qed.

End FieldFacts.

(** X1. A symbol that fits ([N - 1] characters at most, none of them NUL)
    survives [send_update] and the subscriber's readback unchanged. *)
Theorem copy_symbol_round_trip :
  forall (update_symbol : list ascii) (symbol : string),
    (1 <= length update_symbol)%nat ->
    Z.of_nat (length update_symbol) <= 2 ^ 64 ->
    CStr.nul_free (list_ascii_of_string symbol) ->
    (String.length symbol <= length update_symbol - 1)%nat ->
    Fields.string_of_char_array (Fields.copy_symbol update_symbol symbol) = symbol.
Proof.
  intros arr s H1 H2 Hnul Hlen.
  unfold Fields.string_of_char_array. rewrite copy_symbol_form by assumption.
  rewrite firstn_all2 by (rewrite length_list_ascii_of_string; lia).
  rewrite Nat.min_r by lia.
  destruct (length arr - String.length s)%nat as [|k] eqn:E; [lia|].
  simpl repeat. rewrite (until_nul_app_nul _ _ Hnul).
  apply string_of_list_ascii_of_string.
Qed.

Lemma copy_symbol_round_trip_witness :
  Fields.string_of_char_array
    (Fields.copy_symbol (Fields.zero_array Schema.SYMBOL_SIZE) "GOOG")
  = "GOOG"%string.
Proof.
  apply copy_symbol_round_trip.
  - vm_compute. lia.
  - vm_compute. discriminate.
  - vm_compute. repeat constructor.
  - vm_compute. lia.
Defined.

(** X2. Whatever the symbol, [send_update] leaves an array of the same [N]
    bytes whose last byte is NUL; what is read back from it has at most
    [N - 1] characters and is a prefix of the symbol. *)
Theorem copy_symbol_always_terminated :
  forall (update_symbol : list ascii) (symbol : string),
    (1 <= length update_symbol)%nat ->
    Z.of_nat (length update_symbol) <= 2 ^ 64 ->
    length (Fields.copy_symbol update_symbol symbol) = length update_symbol
    /\ last (Fields.copy_symbol update_symbol symbol) = Some CStr.NUL
    /\ (String.length (Fields.string_of_char_array
                         (Fields.copy_symbol update_symbol symbol))
        <= length update_symbol - 1)%nat
    /\ exists rest,
        list_ascii_of_string symbol
        = list_ascii_of_string
            (Fields.string_of_char_array (Fields.copy_symbol update_symbol symbol))
          ++ rest.
Proof.
  intros arr s H1 H2.
  pose proof (copy_symbol_form arr s H1 H2) as F.
  set (k := (length arr - Nat.min (length arr - 1) (String.length s))%nat) in F.
  assert (Hk : exists k', k = S k') by (exists (k - 1)%nat; subst k; lia).
  destruct Hk as [k' Hk]. rewrite Hk in F.
  assert (R : CStr.until_nul (Fields.copy_symbol arr s)
              = CStr.until_nul (firstn (length arr - 1) (list_ascii_of_string s))).
  { rewrite F. simpl repeat.
    generalize (firstn (length arr - 1) (list_ascii_of_string s)) as l.
    induction l as [|c l IH]; simpl; [reflexivity|].
    destruct (CStr.is_nul c); [reflexivity|]. f_equal. exact IH. }
  split; [apply copy_symbol_length; assumption|].
  split.
  { rewrite F. replace (S k') with (k' + 1)%nat by lia.
    rewrite repeat_app, app_assoc. apply last_snoc. }
  split.
  { unfold Fields.string_of_char_array. rewrite R, length_string_of_list_ascii.
    pose proof (until_nul_length (firstn (length arr - 1) (list_ascii_of_string s))).
    rewrite length_firstn in H. lia. }
  unfold Fields.string_of_char_array. rewrite R, list_ascii_of_string_of_list_ascii.
  destruct (until_nul_prefix (firstn (length arr - 1) (list_ascii_of_string s)))
    as [rest Hrest].
  exists (rest ++ skipn (length arr - 1) (list_ascii_of_string s)).
  rewrite app_assoc, <- Hrest. symmetry. apply firstn_skipn.
Qed.

Lemma copy_symbol_always_terminated_witness :
  last (Fields.copy_symbol (Fields.zero_array Schema.SYMBOL_SIZE) "ABCDEFGHIJ")
  = Some CStr.NUL.
Proof.
  apply (copy_symbol_always_terminated (Fields.zero_array Schema.SYMBOL_SIZE) "ABCDEFGHIJ").
  - vm_compute. lia.
  - vm_compute. discriminate.
Defined.

(** ** The fills of the test *)

Section TestFfiFacts.
Import CStr Fields TestFfi.

(** [strncpy] of a C string that is shorter than the count: the string, NUL
    padding, and the rest of the destination. *)
Lemma strncpy_short dest src n :
  (strlen src <= n)%nat ->
  strncpy dest src n = until_nul src ++ repeat NUL (n - strlen src) ++ skipn n dest.
Proof.
  unfold strlen. intros H. unfold strncpy.
  rewrite firstn_all2 by exact H. reflexivity.
Qed.

Lemma existsb_is_nul_app_nul l r : existsb is_nul (l ++ NUL :: r) = true.
Proof. rewrite existsb_app. simpl. apply orb_true_r. Qed.

End TestFfiFacts.

(** X3. The fill of test 3 followed by its own readback gives the symbol
    back, and the length field is its length, for every C string of at most
    [INTEROP_STRING_MAX - 1] = 63 characters, whatever the field held before. *)
Theorem test_fill_round_trip :
  forall (req_symbol : Wire.interop_string) (symbol : list ascii),
    length (Wire.data req_symbol) = Schema.INTEROP_STRING_MAX ->
    (CStr.strlen symbol <= Schema.INTEROP_STRING_MAX - 1)%nat ->
    TestFfi.read_request_symbol (Fields.set_request_symbol req_symbol symbol)
    = Some (string_of_list_ascii (CStr.until_nul symbol))
    /\ Wire.len (Fields.set_request_symbol req_symbol symbol)
       = Z.of_nat (CStr.strlen symbol).
Proof.
  intros req sym Hreq Hlen. unfold Schema.INTEROP_STRING_MAX in *. simpl in Hlen.
  assert (Hl : Wire.len (Fields.set_request_symbol req sym) = Z.of_nat (CStr.strlen sym)).
  { unfold Fields.set_request_symbol, Num.to_uint32. cbn [Wire.len].
    apply Z.mod_small. change (2 ^ 32) with 4294967296. lia. }
  split; [|exact Hl].
  unfold TestFfi.read_request_symbol. rewrite Hl, Nat2Z.id.
  assert (Hd : length (Wire.data (Fields.set_request_symbol req sym)) = 64%nat).
  { unfold Fields.set_request_symbol. cbn [Wire.data].
    rewrite strncpy_length; [exact Hreq|]. rewrite Hreq. simpl. lia. }
  rewrite Hd. destruct (Nat.leb_spec (CStr.strlen sym) 64) as [_|Hgt]; [|lia].
  f_equal. unfold CStr.string_of_bytes. f_equal.
  unfold Fields.set_request_symbol. cbn [Wire.data].
  unfold Schema.INTEROP_STRING_MAX. simpl (64 - 1)%nat.
  rewrite strncpy_short by exact Hlen.
  unfold CStr.strlen. apply take_app_length.
Qed.

Lemma test_fill_round_trip_witness :
  TestFfi.read_request_symbol
    (Fields.set_request_symbol
       {| Wire.data := repeat "?"%char Schema.INTEROP_STRING_MAX; Wire.len := 99 |}
       (list_ascii_of_string "AAPL"))
  = Some "AAPL"%string.
Proof.
  apply (test_fill_round_trip
           {| Wire.data := repeat "?"%char Schema.INTEROP_STRING_MAX; Wire.len := 99 |}
           (list_ascii_of_string "AAPL")).
  - reflexivity.
  - vm_compute. lia.
Defined.

(** X4. For a C string of 63 characters or more the fill of test 3 writes no
    terminator: the field holds the first 63 characters followed by the byte
    that was last in it before, so it is a C string only if that byte
    happened to be NUL; and for more than 64 characters the readback by
    length reads past the array. *)
Theorem test_fill_over_long :
  forall (prefix : list ascii) (b : ascii) (old_len : Z) (symbol : list ascii),
    length prefix = (Schema.INTEROP_STRING_MAX - 1)%nat ->
    (Schema.INTEROP_STRING_MAX - 1 <= CStr.strlen symbol)%nat ->
    Z.of_nat (CStr.strlen symbol) < 2 ^ 32 ->
    Wire.data (Fields.set_request_symbol
                 {| Wire.data := prefix ++ [b]; Wire.len := old_len |} symbol)
    = firstn (Schema.INTEROP_STRING_MAX - 1) (CStr.until_nul symbol) ++ [b]
    /\ TestFfi.print_c_string
         (Wire.data (Fields.set_request_symbol
                       {| Wire.data := prefix ++ [b]; Wire.len := old_len |} symbol))
       = (if CStr.is_nul b
          then Some (firstn (Schema.INTEROP_STRING_MAX - 1) (CStr.until_nul symbol))
          else None)
    /\ ((Schema.INTEROP_STRING_MAX < CStr.strlen symbol)%nat ->
        TestFfi.read_request_symbol
          (Fields.set_request_symbol
             {| Wire.data := prefix ++ [b]; Wire.len := old_len |} symbol)
        = None).
Proof.
  intros prefix b old_len sym Hp Hlen H32.
  unfold Schema.INTEROP_STRING_MAX in *. simpl (64 - 1)%nat in *.
  assert (Hd : Wire.data (Fields.set_request_symbol
                            {| Wire.data := prefix ++ [b]; Wire.len := old_len |} sym)
               = firstn 63 (CStr.until_nul sym) ++ [b]).
  { unfold Fields.set_request_symbol. cbn [Wire.data]. unfold CStr.strncpy.
    unfold Schema.INTEROP_STRING_MAX. simpl (64 - 1)%nat.
    unfold CStr.strlen in Hlen.
    rewrite length_firstn, Nat.min_l by lia. rewrite Nat.sub_diag. simpl repeat.
    simpl app at 2. f_equal. rewrite <- Hp. apply drop_app_length. }
  assert (Hf : CStr.nul_free (firstn 63 (CStr.until_nul sym)))
    by (apply nul_free_firstn, until_nul_is_nul_free).
  split; [exact Hd|]. split.
  - rewrite Hd. unfold TestFfi.print_c_string.
    rewrite existsb_app, (existsb_is_nul_nul_free _ Hf). simpl existsb.
    rewrite orb_false_r. destruct (CStr.is_nul b) eqn:Eb; [|reflexivity].
    f_equal. unfold CStr.is_nul in Eb. apply Ascii.eqb_eq in Eb. subst b.
    apply (until_nul_app_nul _ [] Hf).
  - intros Hgt. unfold TestFfi.read_request_symbol. rewrite Hd.
    unfold Fields.set_request_symbol, Num.to_uint32. cbn [Wire.len].
    rewrite Z.mod_small by lia. rewrite Nat2Z.id.
    rewrite length_app, length_firstn. simpl length.
    unfold CStr.strlen in *.
    destruct (Nat.leb_spec (length (CStr.until_nul sym))
                           (Nat.min 63 (length (CStr.until_nul sym)) + 1)) as [Hle|_];
      [lia|reflexivity].
Qed.

Lemma test_fill_over_long_witness :
  TestFfi.print_c_string
    (Wire.data
       (Fields.set_request_symbol
          {| Wire.data := repeat "?"%char 63 ++ ["?"%char]; Wire.len := 99 |}
          (list_ascii_of_string
             "0123456789012345678901234567890123456789012345678901234567890123456789")))
  = None.
Proof.
  assert (A : length (repeat "?"%char 63) = (Schema.INTEROP_STRING_MAX - 1)%nat)
    by reflexivity.
  assert (B : (Schema.INTEROP_STRING_MAX - 1
               <= CStr.strlen
                    (list_ascii_of_string
                       "0123456789012345678901234567890123456789012345678901234567890123456789"))%nat)
    by (vm_compute; lia).
  assert (C : Z.of_nat
                (CStr.strlen
                   (list_ascii_of_string
                      "0123456789012345678901234567890123456789012345678901234567890123456789"))
              < 2 ^ 32)
    by (vm_compute; reflexivity).
  exact (proj1 (proj2 (test_fill_over_long (repeat "?"%char 63) "?"%char 99 _ A B C))).
Defined.

(** X5. The fill of test 4, [strncpy(depth.symbol, s, 7)] into the eight
    bytes of [MarketDepth::symbol]: for a C string of at most 6 characters
    what is printed from the array is the string itself, whatever the array
    held before; the array keeps its 8 bytes and its last byte. *)
Theorem set_depth_symbol_prints_the_string :
  forall (depth_symbol s : list ascii),
    length depth_symbol = Schema.SYMBOL_SIZE ->
    (CStr.strlen s <= 6)%nat ->
    TestFfi.print_c_string (TestFfi.set_depth_symbol depth_symbol s)
    = Some (CStr.until_nul s)
    /\ length (TestFfi.set_depth_symbol depth_symbol s) = Schema.SYMBOL_SIZE
    /\ skipn 7 (TestFfi.set_depth_symbol depth_symbol s) = skipn 7 depth_symbol.
Proof.
  intros arr s Harr Hs. unfold TestFfi.set_depth_symbol.
  split; [|split].
  - rewrite strncpy_short by lia.
    destruct (7 - CStr.strlen s)%nat as [|k] eqn:E; [lia|]. simpl repeat.
    unfold TestFfi.print_c_string. rewrite <- app_comm_cons.
    rewrite existsb_is_nul_app_nul.
    rewrite (until_nul_app_nul _ _ (until_nul_is_nul_free s)). reflexivity.
  - rewrite strncpy_length; [exact Harr|]. rewrite Harr. unfold Schema.SYMBOL_SIZE. lia.
  - apply strncpy_tail.
Qed.

Lemma set_depth_symbol_prints_the_string_witness :
  TestFfi.print_c_string
    (TestFfi.set_depth_symbol (repeat "?"%char Schema.SYMBOL_SIZE)
       (list_ascii_of_string "GOOG"))
  = Some (list_ascii_of_string "GOOG").
Proof.
  apply (set_depth_symbol_prints_the_string (repeat "?"%char Schema.SYMBOL_SIZE)
           (list_ascii_of_string "GOOG")).
  - reflexivity.
  - vm_compute. lia.
Defined.

(** ** More on the subscriber table of [PriceFeed] *)

Section PriceFeedMore.
Import Actors PriceFeed.

(** The table after [on_unsubscribe] from a sender. *)
Lemma on_unsubscribe_subscribers self m sender :
  subscribers_ (on_unsubscribe self m (Some sender))
  = match subscribers_ self !! name sender with
    | Some info =>
        match filter (fun t => t ≠ Fields.string_of_char_array (msg.Unsubscribe_topic m))
                     (topics info) with
        | [] => delete (name sender) (subscribers_ self)
        | t :: ts =>
            <[name sender := {| ref := ref info; topics := t :: ts |}]> (subscribers_ self)
        end
    | None => subscribers_ self
    end.
Proof.
  unfold on_unsubscribe. destruct (subscribers_ self !! name sender) as [info|];
    [|reflexivity].
  destruct (filter _ (topics info)); reflexivity.
Qed.

Lemma on_unsubscribe_prices self m r : prices_ (on_unsubscribe self m r) = prices_ self.
Proof.
  unfold on_unsubscribe. destruct r as [sender|]; [|reflexivity].
  destruct (subscribers_ self !! name sender) as [info|]; [|reflexivity].
  destruct (filter _ (topics info)); reflexivity.
Qed.

Lemma filter_ne_all (topic : string) (l : list string) :
  topic ∉ l -> filter (fun t => t ≠ topic) l = l.
Proof.
  induction l as [|x l IH]; intros Hn; [reflexivity|].
  rewrite filter_cons. rewrite not_elem_of_cons in Hn. destruct Hn as [Hx Hl].
  destruct (decide (x ≠ topic)) as [_|Heq]; [f_equal; apply IH, Hl|].
  exfalso. apply Heq. congruence.
Qed.

Lemma filter_ne_self (topic : string) : filter (fun t => t ≠ topic) [topic] = [].
Proof.
  rewrite filter_cons. destruct (decide (topic ≠ topic)) as [Hne|_]; [|reflexivity].
  contradiction.
Qed.

Lemma subscribed_nodup old sender topic :
  (forall info, old = Some info -> NoDup (topics info)) ->
  NoDup (topics (subscribed old sender topic)).
Proof.
  intros Hold. unfold subscribed. destruct old as [info|]; cbn [topics].
  - pose proof (Hold info eq_refl) as Hnd.
    destruct (decide (topic ∈ topics info)) as [_|Hn]; [exact Hnd|]. cbn [topics].
    apply NoDup_app. split; [exact Hnd|]. split; [|apply NoDup_singleton].
    intros x Hx Hx'. apply list_elem_of_singleton in Hx'. subst x. contradiction.
  - apply NoDup_singleton.
Qed.

End PriceFeedMore.

(** X6. No subscriber of [PriceFeed] ever lists a topic twice: the property
    holds in the constructor state and is kept by [on_subscribe], by
    [on_unsubscribe] and so by every sequence of deliveries. *)
Theorem topics_nodup_preserved :
  forall (self : PriceFeed.State),
    Inv.topics_nodup (PriceFeed.subscribers_ self) ->
    (forall env m r,
        Inv.topics_nodup (PriceFeed.subscribers_ (fst (PriceFeed.on_subscribe env self m r))))
    /\ (forall m r,
           Inv.topics_nodup (PriceFeed.subscribers_ (PriceFeed.on_unsubscribe self m r)))
    /\ (forall ds, Inv.topics_nodup (PriceFeed.subscribers_ (PriceFeed.run self ds))).
Proof.
  assert (Hsub : forall self env m r,
             Inv.topics_nodup (PriceFeed.subscribers_ self) ->
             Inv.topics_nodup
               (PriceFeed.subscribers_ (fst (PriceFeed.on_subscribe env self m r)))).
  { intros self env m r Hinv. destruct r as [sender|]; [|exact Hinv].
    rewrite on_subscribe_subscribers. unfold Inv.topics_nodup.
    apply map_Forall_insert_2; [|exact Hinv].
    apply subscribed_nodup. intros info E.
    exact (map_Forall_lookup_1 _ _ _ _ Hinv E). }
  assert (Hun : forall self m r,
             Inv.topics_nodup (PriceFeed.subscribers_ self) ->
             Inv.topics_nodup (PriceFeed.subscribers_ (PriceFeed.on_unsubscribe self m r))).
  { intros self m r Hinv. destruct r as [sender|]; [|exact Hinv].
    rewrite on_unsubscribe_subscribers.
    destruct (PriceFeed.subscribers_ self !! Actors.name sender) as [info|] eqn:E;
      [|exact Hinv].
    pose proof (map_Forall_lookup_1 _ _ _ _ Hinv E) as Hnd. simpl in Hnd.
    pose proof (NoDup_filter
                  (fun t => t ≠ Fields.string_of_char_array (msg.Unsubscribe_topic m))
                  _ Hnd) as Hf.
    destruct (filter _ (PriceFeed.topics info)) as [|t ts].
    - unfold Inv.topics_nodup. apply map_Forall_delete. exact Hinv.
    - unfold Inv.topics_nodup. apply map_Forall_insert_2; [exact Hf|exact Hinv]. }
  intros self Hinv. split; [|split].
  - intros env m r. apply Hsub, Hinv.
  - intros m r. apply Hun, Hinv.
  - intros ds. revert self Hinv. unfold PriceFeed.run.
    induction ds as [|[env d] ds IH]; intros self Hinv; [exact Hinv|].
    cbn [fold_left fst snd]. apply IH. destruct d as [m r|m r]; cbn [PriceFeed.handle].
    + apply Hsub, Hinv.
    + apply Hun, Hinv.
Qed.

Lemma topics_nodup_preserved_witness :
  Inv.topics_nodup
    (PriceFeed.subscribers_
       (PriceFeed.run PriceFeed.PriceFeed_new
          [({| PriceFeed.time_now := 1700000000; PriceFeed.rand_value := 12345 |},
            PriceFeed.DSubscribe
              {| msg.Subscribe_topic :=
                   Codec.copy_array Schema.TOPIC_SIZE CStr.NUL (list_ascii_of_string "AAPL") |}
              (Some {| Actors.addr := 9; Actors.name := "rust_price_monitor" |}));
           ({| PriceFeed.time_now := 1700000001; PriceFeed.rand_value := 54321 |},
            PriceFeed.DSubscribe
              {| msg.Subscribe_topic :=
                   Codec.copy_array Schema.TOPIC_SIZE CStr.NUL (list_ascii_of_string "AAPL") |}
              (Some {| Actors.addr := 9; Actors.name := "rust_price_monitor" |}))])).
Proof.
  apply (proj2 (proj2 (topics_nodup_preserved PriceFeed.PriceFeed_new
                         (map_Forall_empty _)))).
Defined.

(** X7. A handler of [PriceFeed] writes the entry of the sender only: the
    entry of every other name and the prices are as before, for
    [on_subscribe] and for [on_unsubscribe]; and with no sender both handlers
    change nothing and [on_subscribe] sends nothing. *)
Theorem handlers_touch_only_the_sender :
  forall (env : PriceFeed.Env) (self : PriceFeed.State)
         (ms : msg.Subscribe) (mu : msg.Unsubscribe),
    (forall sender other,
        other <> Actors.name sender ->
        PriceFeed.subscribers_ (fst (PriceFeed.on_subscribe env self ms (Some sender)))
          !! other
        = PriceFeed.subscribers_ self !! other
        /\ PriceFeed.subscribers_ (PriceFeed.on_unsubscribe self mu (Some sender)) !! other
           = PriceFeed.subscribers_ self !! other)
    /\ (forall r,
           PriceFeed.prices_ (fst (PriceFeed.on_subscribe env self ms r))
           = PriceFeed.prices_ self
           /\ PriceFeed.prices_ (PriceFeed.on_unsubscribe self mu r) = PriceFeed.prices_ self)
    /\ PriceFeed.on_subscribe env self ms None = (self, [])
    /\ PriceFeed.on_unsubscribe self mu None = self.
Proof.
  intros env self ms mu. split; [|split; [|split]].
  - intros sender other Hne. split.
    + rewrite on_subscribe_subscribers. apply lookup_insert_ne. congruence.
    + rewrite on_unsubscribe_subscribers.
      destruct (PriceFeed.subscribers_ self !! Actors.name sender) as [info|];
        [|reflexivity].
      destruct (filter _ (PriceFeed.topics info)).
      * apply lookup_delete_ne. congruence.
      * apply lookup_insert_ne. congruence.
  - intros r. split; [apply on_subscribe_prices|apply on_unsubscribe_prices].
  - reflexivity.
  - reflexivity.
Qed.

(** X8. After [on_unsubscribe] the sender is no longer subscribed to the
    topic: if its entry is still there, the topic is not in it, every other
    topic it had is, in the same order, and its reference is the same; the
    entry is gone exactly when no other topic was left. *)
Theorem on_unsubscribe_removes_topic :
  forall (self : PriceFeed.State) (m : msg.Unsubscribe)
         (sender : Actors.Actor) (info : PriceFeed.SubscriberInfo),
    PriceFeed.subscribers_ self !! Actors.name sender = Some info ->
    (forall info',
        PriceFeed.subscribers_ (PriceFeed.on_unsubscribe self m (Some sender))
          !! Actors.name sender = Some info' ->
        (Fields.string_of_char_array (msg.Unsubscribe_topic m) ∉ PriceFeed.topics info')
        /\ PriceFeed.topics info'
           = filter (fun t => t ≠ Fields.string_of_char_array (msg.Unsubscribe_topic m))
                    (PriceFeed.topics info)
        /\ PriceFeed.ref info' = PriceFeed.ref info)
    /\ (PriceFeed.subscribers_ (PriceFeed.on_unsubscribe self m (Some sender))
          !! Actors.name sender = None
        <-> (forall t, t ∈ PriceFeed.topics info ->
                       t = Fields.string_of_char_array (msg.Unsubscribe_topic m))).
Proof.
  intros self m sender info E. rewrite on_unsubscribe_subscribers, E.
  destruct (filter _ (PriceFeed.topics info)) as [|t ts] eqn:F.
  - split.
    + intros info' H. rewrite lookup_delete_eq in H. discriminate H.
    + split; [|intros _; apply lookup_delete_eq].
      intros _ t Ht.
      destruct (decide (t = Fields.string_of_char_array (msg.Unsubscribe_topic m)))
        as [Heq|Hne]; [exact Heq|].
      exfalso.
      assert (Hin : t ∈ filter
                      (fun t => t ≠ Fields.string_of_char_array (msg.Unsubscribe_topic m))
                      (PriceFeed.topics info))
        by (apply list_elem_of_filter; split; assumption).
      rewrite F in Hin. apply elem_of_nil in Hin. exact Hin.
  - split.
    + intros info' H. rewrite lookup_insert_eq in H. injection H as <-.
      cbn [PriceFeed.topics PriceFeed.ref]. split; [|split; reflexivity].
      rewrite <- F. intros Hin. apply list_elem_of_filter in Hin as [Hne _].
      apply Hne. reflexivity.
    + split; [intros H; rewrite lookup_insert_eq in H; discriminate H|].
      intros Hall. exfalso.
      assert (Hin : t ∈ filter
                      (fun t => t ≠ Fields.string_of_char_array (msg.Unsubscribe_topic m))
                      (PriceFeed.topics info))
        by (rewrite F; apply list_elem_of_here).
      apply list_elem_of_filter in Hin as [Hne Hin]. apply Hne, Hall, Hin.
Qed.

Lemma on_unsubscribe_removes_topic_witness :
  PriceFeed.subscribers_
    (PriceFeed.on_unsubscribe
       {| PriceFeed.subscribers_ :=
            {["rust_price_monitor"%string :=
                {| PriceFeed.ref := None; PriceFeed.topics := ["AAPL"%string] |}]};
          PriceFeed.prices_ := ∅ |}
       {| msg.Unsubscribe_topic := list_ascii_of_string "AAPL" |}
       (Some {| Actors.addr := 9; Actors.name := "rust_price_monitor" |}))
    !! "rust_price_monitor"%string
  = None.
Proof.
  assert (E : PriceFeed.subscribers_
                {| PriceFeed.subscribers_ :=
                     {["rust_price_monitor"%string :=
                         {| PriceFeed.ref := None; PriceFeed.topics := ["AAPL"%string] |}]};
                   PriceFeed.prices_ := ∅ |}
                !! Actors.name {| Actors.addr := 9; Actors.name := "rust_price_monitor" |}
              = Some {| PriceFeed.ref := None; PriceFeed.topics := ["AAPL"%string] |})
    by reflexivity.
  apply (proj2 (on_unsubscribe_removes_topic _
                  {| msg.Unsubscribe_topic := list_ascii_of_string "AAPL" |} _ _ E)).
  intros t Ht. apply list_elem_of_singleton in Ht. subst t. reflexivity.
Defined.

Section PriceFeedRoundTrip.
Import Actors PriceFeed.

Lemma State_eq (a b : State) :
  subscribers_ a = subscribers_ b -> prices_ a = prices_ b -> a = b.
Proof. destruct a, b; cbn [subscribers_ prices_]; intros -> ->; reflexivity. Qed.

(** The updates [on_subscribe] sends. *)
Lemma on_subscribe_sent env self m sender :
  snd (on_subscribe env self m (Some sender))
  = match prices_ self !! Fields.string_of_char_array (msg.Subscribe_topic m) with
    | Some price =>
        [send_update env
           (subscribed (subscribers_ self !! name sender) sender
              (Fields.string_of_char_array (msg.Subscribe_topic m)))
           (Fields.string_of_char_array (msg.Subscribe_topic m)) price]
    | None => []
    end.
Proof.
  unfold on_subscribe, subscribed, entry. cbn [snd].
  destruct (subscribers_ self !! name sender) as [info|] eqn:E.
  - rewrite E. cbn [default]. reflexivity.
  - rewrite lookup_insert_eq. cbn [default topics ref].
    case_decide as Hin; [apply elem_of_nil in Hin; contradiction|]. reflexivity.
Qed.

(** A topic read from a message holds no NUL. *)
Lemma string_of_char_array_nul_free a :
  CStr.nul_free (list_ascii_of_string (Fields.string_of_char_array a)).
Proof.
  unfold Fields.string_of_char_array.
  rewrite list_ascii_of_string_of_list_ascii. apply until_nul_is_nul_free.
Qed.

Lemma string_of_char_array_length a :
  (String.length (Fields.string_of_char_array a) <= length a)%nat.
Proof.
  unfold Fields.string_of_char_array. rewrite length_string_of_list_ascii.
  apply until_nul_length.
Qed.

End PriceFeedRoundTrip.

(** X9. Subscribing to a topic the sender does not have yet and then
    unsubscribing from it puts the publisher back in the state it was in,
    provided no entry of the table has an empty topics list. *)
Theorem subscribe_then_unsubscribe_restores :
  forall (env : PriceFeed.Env) (self : PriceFeed.State)
         (ms : msg.Subscribe) (mu : msg.Unsubscribe) (sender : Actors.Actor),
    msg.Unsubscribe_topic mu = msg.Subscribe_topic ms ->
    PriceFeed.topics_nonempty (PriceFeed.subscribers_ self) ->
    (forall info,
        PriceFeed.subscribers_ self !! Actors.name sender = Some info ->
        Fields.string_of_char_array (msg.Subscribe_topic ms) ∉ PriceFeed.topics info) ->
    PriceFeed.on_unsubscribe
      (fst (PriceFeed.on_subscribe env self ms (Some sender))) mu (Some sender)
    = self.
Proof.
  intros env self ms mu sender Hm Hinv Hnew. apply State_eq.
  - rewrite on_unsubscribe_subscribers, on_subscribe_subscribers, lookup_insert_eq, Hm.
    unfold PriceFeed.subscribed.
    destruct (PriceFeed.subscribers_ self !! Actors.name sender) as [info|] eqn:E.
    + pose proof (Hnew info eq_refl) as Hn.
      destruct (decide (_ ∈ PriceFeed.topics info)) as [Hin|_]; [contradiction|].
      cbn [PriceFeed.topics PriceFeed.ref].
      rewrite filter_app, filter_ne_self, app_nil_r, (filter_ne_all _ _ Hn).
      pose proof (map_Forall_lookup_1 _ _ _ _ Hinv E) as Hne. simpl in Hne.
      destruct info as [r ts]. cbn [PriceFeed.topics PriceFeed.ref] in *.
      destruct ts as [|t ts]; [contradiction|].
      rewrite insert_insert_eq. apply insert_id. exact E.
    + cbn [PriceFeed.topics]. rewrite filter_ne_self.
      rewrite delete_insert_eq. apply delete_id. exact E.
  - rewrite on_unsubscribe_prices. apply on_subscribe_prices.
Qed.

Lemma subscribe_then_unsubscribe_restores_witness :
  PriceFeed.on_unsubscribe
    (fst (PriceFeed.on_subscribe
            {| PriceFeed.time_now := 1700000000; PriceFeed.rand_value := 12345 |}
            PriceFeed.PriceFeed_new
            {| msg.Subscribe_topic := list_ascii_of_string "MSFT" |}
            (Some {| Actors.addr := 9; Actors.name := "rust_price_monitor" |})))
    {| msg.Unsubscribe_topic := list_ascii_of_string "MSFT" |}
    (Some {| Actors.addr := 9; Actors.name := "rust_price_monitor" |})
  = PriceFeed.PriceFeed_new.
Proof.
  apply subscribe_then_unsubscribe_restores.
  - reflexivity.
  - apply map_Forall_empty.
  - intros info H. discriminate H.
Defined.

(** The timestamp of [send_update]: always an [int64_t] value, and the time
    in milliseconds as long as that fits one. *)
Lemma to_int64_in_range : forall z, Num.in_int64 (Num.to_int64 z) = true.
Proof.
  intros z. unfold Num.in_int64, Num.to_int64.
  pose proof (Z.mod_pos_bound (z + 2 ^ 63) (2 ^ 64) ltac:(lia)) as Hb.
  apply andb_true_iff. split; [apply Z.leb_le | apply Z.ltb_lt]; lia.
Qed.

Lemma to_int64_id : forall z, Num.in_int64 z = true -> Num.to_int64 z = z.
Proof.
  intros z H. unfold Num.in_int64 in H. apply andb_true_iff in H.
  destruct H as [Hl Hu]. apply Z.leb_le in Hl. apply Z.ltb_lt in Hu.
  unfold Num.to_int64. rewrite Z.mod_small; lia.
Qed.

Lemma timestamp_in_range :
  forall t, Num.in_int64 (t * 1000) = true ->
            Num.to_int64 (Num.to_int64 t * 1000) = t * 1000.
Proof.
  intros t H. assert (Ht : Num.in_int64 t = true).
  { unfold Num.in_int64 in *. apply andb_true_iff in H. destruct H as [Hl Hu].
    apply Z.leb_le in Hl. apply Z.ltb_lt in Hu.
    apply andb_true_iff. split; [apply Z.leb_le | apply Z.ltb_lt]; lia. }
  rewrite (to_int64_id t Ht). apply to_int64_id. exact H.
Qed.

(** Past the range the product wraps: the first second whose milliseconds
    leave [int64_t] gives a negative timestamp. *)
Example send_update_timestamp_wraps :
  msg.MarketUpdate_timestamp
    (PriceFeed.sent_update
       (PriceFeed.send_update
          {| PriceFeed.time_now := 9223372036854776; PriceFeed.rand_value := 0 |}
          {| PriceFeed.ref := None; PriceFeed.topics := [] |}
          "AAPL" 4639481672377565184))
  = -9223372036854775616
  /\ msg.MarketUpdate_timestamp
       (PriceFeed.sent_update
          (PriceFeed.send_update
             {| PriceFeed.time_now := 9223372036854775; PriceFeed.rand_value := 0 |}
             {| PriceFeed.ref := None; PriceFeed.topics := [] |}
             "AAPL" 4639481672377565184))
     = 9223372036854775000.
Proof. split; reflexivity. Qed.

(** X10. The initial update of [on_subscribe]: when the topic has a price,
    exactly one update is sent, to the reference stored in the entry of the
    sender, with that price, a volume below 10000 and the [int64_t] timestamp
    of the source: the wrapped product of the time and 1000, always within
    [int64_t], and the time in milliseconds whenever that fits an [int64_t].
    Its symbol reads back as the first seven characters of the topic, so as
    the topic itself when that has at most seven. When the topic has no price
    nothing is sent. *)
Theorem on_subscribe_initial_update :
  forall (env : PriceFeed.Env) (self : PriceFeed.State)
         (m : msg.Subscribe) (sender : Actors.Actor),
    (PriceFeed.prices_ self !! Fields.string_of_char_array (msg.Subscribe_topic m) = None ->
     snd (PriceFeed.on_subscribe env self m (Some sender)) = [])
    /\ (forall price,
           PriceFeed.prices_ self !! Fields.string_of_char_array (msg.Subscribe_topic m)
           = Some price ->
           exists upd info',
             snd (PriceFeed.on_subscribe env self m (Some sender)) = [upd]
             /\ PriceFeed.subscribers_ (fst (PriceFeed.on_subscribe env self m (Some sender)))
                  !! Actors.name sender = Some info'
             /\ PriceFeed.sent_to upd = PriceFeed.ref info'
             /\ msg.MarketUpdate_price (PriceFeed.sent_update upd) = price
             /\ msg.MarketUpdate_timestamp (PriceFeed.sent_update upd)
                = Num.to_int64 (Num.to_int64 (PriceFeed.time_now env) * 1000)
             /\ Num.in_int64 (msg.MarketUpdate_timestamp (PriceFeed.sent_update upd))
                = true
             /\ (Num.in_int64 (PriceFeed.time_now env * 1000) = true ->
                 msg.MarketUpdate_timestamp (PriceFeed.sent_update upd)
                 = PriceFeed.time_now env * 1000)
             /\ (0 <= PriceFeed.rand_value env ->
                 0 <= msg.MarketUpdate_volume (PriceFeed.sent_update upd) < 10000)
             /\ length (msg.MarketUpdate_symbol (PriceFeed.sent_update upd))
                = Schema.SYMBOL_SIZE
             /\ Fields.string_of_char_array
                  (msg.MarketUpdate_symbol (PriceFeed.sent_update upd))
                = string_of_list_ascii
                    (firstn (Schema.SYMBOL_SIZE - 1)
                       (list_ascii_of_string
                          (Fields.string_of_char_array (msg.Subscribe_topic m))))
             /\ ((String.length (Fields.string_of_char_array (msg.Subscribe_topic m))
                  <= Schema.SYMBOL_SIZE - 1)%nat ->
                 Fields.string_of_char_array
                   (msg.MarketUpdate_symbol (PriceFeed.sent_update upd))
                 = Fields.string_of_char_array (msg.Subscribe_topic m))).
Proof.
  intros env self m sender. rewrite on_subscribe_sent. split.
  - intros ->. reflexivity.
  - intros price ->. eexists. eexists. split; [reflexivity|].
    split; [rewrite on_subscribe_subscribers; apply lookup_insert_eq|].
    cbn [PriceFeed.send_update PriceFeed.sent_to PriceFeed.sent_update
         msg.MarketUpdate_price msg.MarketUpdate_timestamp msg.MarketUpdate_volume
         msg.MarketUpdate_symbol].
    split; [reflexivity|]. split; [reflexivity|]. split; [reflexivity|].
    split; [apply to_int64_in_range|].
    split; [apply timestamp_in_range|].
    split; [intros Hr; apply Z.rem_bound_pos; lia|].
    set (topic := Fields.string_of_char_array (msg.Subscribe_topic m)).
    assert (H1 : (1 <= length (Fields.zero_array Schema.SYMBOL_SIZE))%nat)
      by (vm_compute; lia).
    assert (H2 : Z.of_nat (length (Fields.zero_array Schema.SYMBOL_SIZE)) <= 2 ^ 64)
      by (vm_compute; discriminate).
    assert (Hnul : CStr.nul_free (list_ascii_of_string topic))
      by apply string_of_char_array_nul_free.
    split; [apply (copy_symbol_length _ _ H1 H2)|].
    assert (R : Fields.string_of_char_array
                  (Fields.copy_symbol (Fields.zero_array Schema.SYMBOL_SIZE) topic)
                = string_of_list_ascii
                    (firstn (Schema.SYMBOL_SIZE - 1) (list_ascii_of_string topic))).
    { unfold Fields.string_of_char_array at 1.
      rewrite (copy_symbol_form _ _ H1 H2).
      change (length (Fields.zero_array Schema.SYMBOL_SIZE)) with Schema.SYMBOL_SIZE.
      destruct (Schema.SYMBOL_SIZE
                - Nat.min (Schema.SYMBOL_SIZE - 1) (String.length topic))%nat
        as [|k] eqn:E; [unfold Schema.SYMBOL_SIZE in E; lia|].
      simpl repeat.
      rewrite (until_nul_app_nul _ _ (nul_free_firstn _ _ Hnul)). reflexivity. }
    split; [exact R|].
    intros Hlen. rewrite R.
    rewrite firstn_all2 by (rewrite length_list_ascii_of_string; exact Hlen).
    apply string_of_list_ascii_of_string.
Qed.

(** ** [publish_all] *)

Section PublishFacts.

Lemma Forall2_concat_imap {A B C : Type} (R : B -> C -> Prop) (l : list A) :
  forall (f : nat -> A -> list B) (g : nat -> A -> list C),
    (forall i x, l !! i = Some x -> Forall2 R (f i x) (g i x)) ->
    Forall2 R (concat (imap f l)) (concat (imap g l)).
Proof.
  induction l as [|x l IH]; intros f g H; simpl; [constructor|].
  apply Forall2_app.
  - apply (H 0%nat x). reflexivity.
  - apply IH. intros i y Hi. apply (H (S i) y). exact Hi.
Qed.

Lemma Forall2_concat_map {A B C : Type} (R : B -> C -> Prop)
    (F : A -> list B) (G : A -> list C) (es : list A) :
  (forall e, e ∈ es -> Forall2 R (F e) (G e)) ->
  Forall2 R (concat (List.map F es)) (concat (List.map G es)).
Proof.
  induction es as [|e es IH]; intros H; simpl; [constructor|].
  apply Forall2_app.
  - apply H. apply elem_of_cons. left. reflexivity.
  - apply IH. intros e' He'. apply H. apply elem_of_cons. right. exact He'.
Qed.

(** Lists produced position by position share no element when each element
    tells its position. *)
Lemma NoDup_concat_imap {A B : Type} (l : list A) :
  forall (f : nat -> A -> list B) (key : B -> nat),
    (forall i x y, l !! i = Some x -> y ∈ f i x -> key y = i) ->
    (forall i x, l !! i = Some x -> NoDup (f i x)) ->
    NoDup (concat (imap f l)).
Proof.
  induction l as [|x l IH]; intros f key Hk Hn; simpl; [apply NoDup_nil_2|].
  apply NoDup_app. split; [apply (Hn 0%nat x); reflexivity|]. split.
  - intros y Hy Hy'. apply list_elem_of_In, in_concat in Hy' as (ys & Hys & Hy').
    apply list_elem_of_In, elem_of_lookup_imap in Hys as (i & x' & -> & Hi).
    apply list_elem_of_In in Hy'.
    pose proof (Hk 0%nat x y eq_refl Hy) as K0.
    pose proof (Hk (S i) x' y Hi Hy') as K1.
    rewrite K0 in K1. discriminate K1.
  - apply (IH (f ∘ S) (fun y => Nat.pred (key y))).
    + intros i x' y Hi Hy. rewrite (Hk (S i) x' y Hi Hy). reflexivity.
    + intros i x' Hi. apply (Hn (S i) x' Hi).
Qed.

Lemma NoDup_concat_map_key {A B K : Type} (F : A -> list B) (key : A -> K)
    (key_of : B -> K) (es : list A) :
  NoDup (key <$> es) ->
  (forall e y, e ∈ es -> y ∈ F e -> key_of y = key e) ->
  (forall e, e ∈ es -> NoDup (F e)) ->
  NoDup (concat (List.map F es)).
Proof.
  induction es as [|e es IH]; intros Hnd Hk Hn; simpl; [apply NoDup_nil_2|].
  rewrite fmap_cons in Hnd. apply NoDup_cons in Hnd as [Hnotin Hnd].
  assert (He : e ∈ e :: es) by (apply elem_of_cons; left; reflexivity).
  apply NoDup_app. split; [apply Hn, He|]. split.
  - intros y Hy Hy'. apply list_elem_of_In, in_concat in Hy' as (ys & Hys & Hy').
    apply in_map_iff in Hys as (e' & <- & He').
    apply list_elem_of_In in Hy', He'.
    apply Hnotin. apply list_elem_of_fmap. exists e'. split; [|exact He'].
    rewrite <- (Hk e y He Hy). apply Hk; [|exact Hy'].
    apply elem_of_cons. right. exact He'.
  - apply IH; [exact Hnd| |].
    + intros e' y He' Hy. apply Hk; [|exact Hy]. apply elem_of_cons. right. exact He'.
    + intros e' He'. apply Hn. apply elem_of_cons. right. exact He'.
Qed.

End PublishFacts.

(** X11. [publish_all] leaves the subscriber table as it is and gives every
    symbol that had a price a new one (no symbol is added or lost). An update
    is sent exactly once for each subscriber and each position of its topic
    list whose topic has a price: it goes to that subscriber's reference and
    carries the new price of the topic. The updates sent are, one for one and
    in the order sent, those of a duplicate-free list of all such
    (subscriber, position) pairs. *)
Theorem publish_all_sends_subscribed_prices :
  forall (reprice : Z -> Num.double -> Num.double) (rand_at : string -> Z)
         (env_at : string -> nat -> PriceFeed.Env) (self : PriceFeed.State),
    PriceFeed.subscribers_ (fst (PriceFeedPublish.publish_all reprice rand_at env_at self))
    = PriceFeed.subscribers_ self
    /\ (forall symbol,
           PriceFeed.prices_ (fst (PriceFeedPublish.publish_all reprice rand_at env_at self))
             !! symbol
           = reprice (rand_at symbol) <$> PriceFeed.prices_ self !! symbol)
    /\ (forall s,
           s ∈ snd (PriceFeedPublish.publish_all reprice rand_at env_at self)
           <-> exists sub_name sub_info i topic price,
               PriceFeed.subscribers_ self !! sub_name = Some sub_info
               /\ PriceFeed.topics sub_info !! i = Some topic
               /\ PriceFeed.prices_ self !! topic = Some price
               /\ s = PriceFeed.send_update (env_at sub_name i) sub_info topic
                        (reprice (rand_at topic) price))
    /\ (exists sites : list (string * nat),
           NoDup sites
           /\ (forall sub_name i,
                  (sub_name, i) ∈ sites
                  <-> exists sub_info topic price,
                      PriceFeed.subscribers_ self !! sub_name = Some sub_info
                      /\ PriceFeed.topics sub_info !! i = Some topic
                      /\ PriceFeed.prices_ self !! topic = Some price)
           /\ Forall2
                (fun site s =>
                   exists sub_info topic price,
                     PriceFeed.subscribers_ self !! fst site = Some sub_info
                     /\ PriceFeed.topics sub_info !! snd site = Some topic
                     /\ PriceFeed.prices_ self !! topic = Some price
                     /\ s = PriceFeed.send_update (env_at (fst site) (snd site))
                              sub_info topic (reprice (rand_at topic) price))
                sites
                (snd (PriceFeedPublish.publish_all reprice rand_at env_at self))).
Proof.
  intros reprice rand_at env_at self.
  assert (Hp : forall symbol,
             map_imap (fun symbol price => Some (reprice (rand_at symbol) price))
                      (PriceFeed.prices_ self) !! symbol
             = reprice (rand_at symbol) <$> PriceFeed.prices_ self !! symbol).
  { intros symbol. rewrite map_lookup_imap.
    destruct (PriceFeed.prices_ self !! symbol); reflexivity. }
  split; [reflexivity|]. split; [exact Hp|]. split.
  { intros s. unfold PriceFeedPublish.publish_all. cbn [snd].
    rewrite list_elem_of_In, in_concat. split.
    - intros (us & Hus & Hs). apply in_map_iff in Hus as ([sub_name sub_info] & <- & Hent).
      apply list_elem_of_In, elem_of_map_to_list in Hent. cbn [fst snd] in Hs.
      unfold PriceFeedPublish.updates_for in Hs. apply in_concat in Hs as (u & Hu & Hs).
      apply list_elem_of_In, elem_of_lookup_imap in Hu as (i & topic & -> & Hi).
      rewrite Hp in Hs.
      destruct (PriceFeed.prices_ self !! topic) as [price|] eqn:E; simpl in Hs;
        [|contradiction].
      destruct Hs as [<-|[]].
      exists sub_name, sub_info, i, topic, price. repeat split; assumption.
    - intros (sub_name & sub_info & i & topic & price & Hsub & Hi & Hprice & ->).
      exists (PriceFeedPublish.updates_for env_at
                (map_imap (fun symbol price => Some (reprice (rand_at symbol) price))
                          (PriceFeed.prices_ self))
                sub_name sub_info).
      split.
      + apply in_map_iff. exists (sub_name, sub_info). split; [reflexivity|].
        apply list_elem_of_In, elem_of_map_to_list. exact Hsub.
      + unfold PriceFeedPublish.updates_for. apply in_concat.
        exists [PriceFeed.send_update (env_at sub_name i) sub_info topic
                  (reprice (rand_at topic) price)].
        split; [|left; reflexivity].
        apply list_elem_of_In, elem_of_lookup_imap. exists i, topic.
        split; [|exact Hi]. rewrite Hp, Hprice. reflexivity. }
  set (sites_for := fun entry : string * PriceFeed.SubscriberInfo =>
         concat
           (imap (fun (i : nat) (topic : string) =>
                    match PriceFeed.prices_ self !! topic with
                    | Some _ => [(fst entry, i)]
                    | None => []
                    end)
                 (PriceFeed.topics (snd entry)))).
  assert (Hsite : forall entry site,
             site ∈ sites_for entry
             <-> fst site = fst entry
                 /\ exists topic price,
                     PriceFeed.topics (snd entry) !! snd site = Some topic
                     /\ PriceFeed.prices_ self !! topic = Some price).
  { intros entry site. unfold sites_for. rewrite list_elem_of_In, in_concat. split.
    - intros (u & Hu & Hs).
      apply list_elem_of_In, elem_of_lookup_imap in Hu as (i & topic & -> & Hi).
      destruct (PriceFeed.prices_ self !! topic) as [price|] eqn:E; simpl in Hs;
        [|contradiction].
      destruct Hs as [<-|[]]. split; [reflexivity|]. exists topic, price.
      split; assumption.
    - intros (Hf & topic & price & Hi & Hprice).
      exists [(fst entry, snd site)]. split.
      + apply list_elem_of_In, elem_of_lookup_imap. exists (snd site), topic.
        split; [|exact Hi]. rewrite Hprice. reflexivity.
      + left. destruct site as [n i]. cbn [fst snd] in *. rewrite Hf. reflexivity. }
  exists (concat (List.map sites_for (map_to_list (PriceFeed.subscribers_ self)))).
  split; [|split].
  - apply (NoDup_concat_map_key sites_for fst fst).
    + apply NoDup_fst_map_to_list.
    + intros entry site _ Hs. apply Hsite in Hs. exact (proj1 Hs).
    + intros entry _. unfold sites_for.
      apply (NoDup_concat_imap _ _ snd).
      * intros i topic site _ Hs.
        destruct (PriceFeed.prices_ self !! topic); [|apply elem_of_nil in Hs; contradiction].
        apply list_elem_of_singleton in Hs. subst site. reflexivity.
      * intros i topic _. destruct (PriceFeed.prices_ self !! topic);
          [apply NoDup_singleton | apply NoDup_nil_2].
  - intros sub_name i. rewrite list_elem_of_In, in_concat. split.
    + intros (u & Hu & Hs). apply in_map_iff in Hu as ([n info] & <- & Hent).
      apply list_elem_of_In, elem_of_map_to_list in Hent.
      apply list_elem_of_In, Hsite in Hs. cbn [fst snd] in Hs.
      destruct Hs as (-> & topic & price & Hi & Hprice).
      exists info, topic, price. repeat split; assumption.
    + intros (info & topic & price & Hsub & Hi & Hprice).
      exists (sites_for (sub_name, info)). split.
      * apply in_map_iff. exists (sub_name, info). split; [reflexivity|].
        apply list_elem_of_In, elem_of_map_to_list. exact Hsub.
      * apply list_elem_of_In, Hsite. cbn [fst snd]. split; [reflexivity|].
        exists topic, price. split; assumption.
  - unfold PriceFeedPublish.publish_all. cbn [snd].
    apply Forall2_concat_map. intros [n info] Hent.
    apply elem_of_map_to_list in Hent. cbn [fst snd].
    unfold sites_for, PriceFeedPublish.updates_for. cbn [fst snd].
    apply Forall2_concat_imap. intros i topic Hi. rewrite Hp.
    destruct (PriceFeed.prices_ self !! topic) as [price|] eqn:E; simpl;
      [|constructor].
    constructor; [|constructor]. cbn [fst snd].
    exists info, topic, price. repeat split; assumption.
Qed.

(** With no subscriber, or when no subscribed topic has a price, nothing is
    sent. *)
Example publish_all_without_subscribers :
  snd (PriceFeedPublish.publish_all (fun r p => p + r) (fun _ => 1)
         (fun _ _ => {| PriceFeed.time_now := 0; PriceFeed.rand_value := 0 |})
         PriceFeed.PriceFeed_new)
  = [].
Proof. vm_compute. reflexivity. Qed.

(** ** [CppPriceFeed] *)

Section CppPriceFeedFacts.
Import Actors CppPriceFeed.

(** After a call of [on_subscribe] that returns, the entry of the sender
    holds a valid reference. *)
Lemma cpp_on_subscribe_returned_has_ref rae actors env self m st out calls :
  on_subscribe rae actors env self m = (Returned (st, out), calls) ->
  exists info r, subscribers_ st !! sender_name = Some info /\ ref info = Some r.
Proof.
  unfold on_subscribe.
  set (subscriber := default default_SubscriberInfo (subscribers_ self !! sender_name)).
  destruct (ref subscriber) as [r0|] eqn:Er.
  - intros H. injection H as <- _ _. cbn [subscribers_].
    eexists. exists r0. split; [apply lookup_insert_eq|].
    case_decide; cbn [ref]; first [exact Er | reflexivity].
  - destruct (InteropManager.get_ref rae actors sender_name) as [o c0].
    destruct o as [r|what|]; cbn [noexcept]; intros H; try discriminate H.
    injection H as <- _ _. cbn [subscribers_].
    eexists. exists r. split; [apply lookup_insert_eq|].
    case_decide; reflexivity.
Qed.

End CppPriceFeedFacts.

(** X12. [CppPriceFeed::on_subscribe] resolves the subscriber once: when the
    entry already holds a valid reference no bridge call is made and the call
    returns; otherwise the bridge calls are those of one [get_ref]; and after
    any call that returned, every later call makes no bridge call, whatever
    the registries hold by then. When the reference is missing and nobody
    has the name, the [noexcept] handler ends the process. *)
Theorem cpp_on_subscribe_resolves_once :
  forall (rae : string -> Z) (actors : gmap string Actors.Actor)
         (env : PriceFeed.Env) (self : CppPriceFeed.State) (m : msg.Subscribe),
    (forall info r,
        CppPriceFeed.subscribers_ self !! CppPriceFeed.sender_name = Some info ->
        CppPriceFeed.ref info = Some r ->
        snd (CppPriceFeed.on_subscribe rae actors env self m) = []
        /\ exists st out,
            fst (CppPriceFeed.on_subscribe rae actors env self m)
            = Actors.Returned (st, out))
    /\ ((forall info,
            CppPriceFeed.subscribers_ self !! CppPriceFeed.sender_name = Some info ->
            CppPriceFeed.ref info = None) ->
        snd (CppPriceFeed.on_subscribe rae actors env self m)
        = snd (InteropManager.get_ref rae actors CppPriceFeed.sender_name)
        /\ (actors !! CppPriceFeed.sender_name = None ->
            rae CppPriceFeed.sender_name = 0 ->
            fst (CppPriceFeed.on_subscribe rae actors env self m) = Actors.Terminated))
    /\ (forall st out calls rae' actors' env' m',
           CppPriceFeed.on_subscribe rae actors env self m
           = (Actors.Returned (st, out), calls) ->
           snd (CppPriceFeed.on_subscribe rae' actors' env' st m') = []).
Proof.
  intros rae actors env self m. split; [|split].
  - intros info r E Er. unfold CppPriceFeed.on_subscribe. rewrite E.
    cbn [default from_option id]. rewrite Er. cbn [fst snd]. split; [reflexivity|]. eexists. eexists. reflexivity.
  - intros Hnone. unfold CppPriceFeed.on_subscribe.
    assert (Er : CppPriceFeed.ref
                   (default CppPriceFeed.default_SubscriberInfo
                      (CppPriceFeed.subscribers_ self !! CppPriceFeed.sender_name))
                 = None).
    { destruct (CppPriceFeed.subscribers_ self !! CppPriceFeed.sender_name) as [info|] eqn:E;
        [exact (Hnone info eq_refl)|reflexivity]. }
    rewrite Er.
    destruct (InteropManager.get_ref rae actors CppPriceFeed.sender_name) as [o c0] eqn:G.
    cbn [fst snd]. split; [reflexivity|].
    intros Hl Hp. unfold InteropManager.get_ref, InteropManager.get_actor_by_name in G.
    rewrite Hl in G.
    change (CStr.c_str CppPriceFeed.sender_name) with CppPriceFeed.sender_name in G.
    rewrite Hp in G. simpl in G. injection G as <- _. reflexivity.
  - intros st out calls rae' actors' env' m' H.
    destruct (cpp_on_subscribe_returned_has_ref _ _ _ _ _ _ _ _ H) as (info & r & E & Er).
    unfold CppPriceFeed.on_subscribe. rewrite E. cbn [default from_option id].
    rewrite Er. reflexivity.
Qed.

(** A first Subscribe when only the peer knows the subscriber: one exists
    query, and the reference stored is the cross-runtime one. *)
Example cpp_on_subscribe_first :
  CppPriceFeed.on_subscribe
    (fun n => if String.eqb n "rust_price_monitor" then 1 else 0) ∅
    {| PriceFeed.time_now := 1700000000; PriceFeed.rand_value := 12345 |}
    {| CppPriceFeed.subscribers_ := ∅;
       CppPriceFeed.prices_ := {["AAPL"%string := 4639481672377565184]};
       CppPriceFeed.update_count_ := 0 |}
    {| msg.Subscribe_topic := list_ascii_of_string "AAPL" |}
  = (Actors.Returned
       ({| CppPriceFeed.subscribers_ :=
             {["rust_price_monitor"%string :=
                 {| CppPriceFeed.name := "rust_price_monitor";
                    CppPriceFeed.topics := ["AAPL"%string];
                    CppPriceFeed.ref :=
                      Some (Actors.ToRust
                              {| Actors.target_name_ := "rust_price_monitor";
                                 Actors.sender_name_ := "" |}) |}]};
           CppPriceFeed.prices_ := {["AAPL"%string := 4639481672377565184]};
           CppPriceFeed.update_count_ := 0 |},
        [{| PriceFeed.sent_to :=
              Some (Actors.ToRust
                      {| Actors.target_name_ := "rust_price_monitor";
                         Actors.sender_name_ := "" |});
            PriceFeed.sent_update :=
              {| msg.MarketUpdate_symbol := list_ascii_of_string "AAPL" ++ repeat CStr.NUL 4;
                 msg.MarketUpdate_price := 4639481672377565184;
                 msg.MarketUpdate_timestamp := 1700000000000;
                 msg.MarketUpdate_volume := 2345 |} |}]),
     [Actors.Exists "rust_price_monitor"]).
Proof. vm_compute. reflexivity. Qed.

(** X13. [CppPriceFeed::on_unsubscribe] never removes an entry: the names in
    the table are the same before and after, and the entry of the sender
    keeps its name and reference and loses the topic only. In particular an
    entry whose only topic is unsubscribed stays in the table with no topic,
    unlike in [PriceFeed]. *)
Theorem cpp_on_unsubscribe_keeps_the_entry :
  forall (self : CppPriceFeed.State) (m : msg.Unsubscribe),
    (forall k,
        is_Some (CppPriceFeed.subscribers_ (CppPriceFeed.on_unsubscribe self m) !! k)
        <-> is_Some (CppPriceFeed.subscribers_ self !! k))
    /\ (forall info,
           CppPriceFeed.subscribers_ self !! CppPriceFeed.sender_name = Some info ->
           CppPriceFeed.subscribers_ (CppPriceFeed.on_unsubscribe self m)
             !! CppPriceFeed.sender_name
           = Some {| CppPriceFeed.name := CppPriceFeed.name info;
                     CppPriceFeed.topics :=
                       filter (fun t => t ≠ Fields.string_of_char_array
                                              (msg.Unsubscribe_topic m))
                              (CppPriceFeed.topics info);
                     CppPriceFeed.ref := CppPriceFeed.ref info |})
    /\ (forall info,
           CppPriceFeed.subscribers_ self !! CppPriceFeed.sender_name = Some info ->
           CppPriceFeed.topics info
           = [Fields.string_of_char_array (msg.Unsubscribe_topic m)] ->
           exists info',
             CppPriceFeed.subscribers_ (CppPriceFeed.on_unsubscribe self m)
               !! CppPriceFeed.sender_name = Some info'
             /\ CppPriceFeed.topics info' = []).
Proof.
  intros self m.
  assert (H2 : forall info,
             CppPriceFeed.subscribers_ self !! CppPriceFeed.sender_name = Some info ->
             CppPriceFeed.subscribers_ (CppPriceFeed.on_unsubscribe self m)
               !! CppPriceFeed.sender_name
             = Some {| CppPriceFeed.name := CppPriceFeed.name info;
                       CppPriceFeed.topics :=
                         filter (fun t => t ≠ Fields.string_of_char_array
                                                (msg.Unsubscribe_topic m))
                                (CppPriceFeed.topics info);
                       CppPriceFeed.ref := CppPriceFeed.ref info |}).
  { intros info E. unfold CppPriceFeed.on_unsubscribe. rewrite E.
    cbn [CppPriceFeed.subscribers_]. apply lookup_insert_eq. }
  split; [|split; [exact H2|]].
  - intros k. unfold CppPriceFeed.on_unsubscribe.
    destruct (CppPriceFeed.subscribers_ self !! CppPriceFeed.sender_name) as [info|] eqn:E;
      [|reflexivity].
    cbn [CppPriceFeed.subscribers_].
    destruct (decide (k = CppPriceFeed.sender_name)) as [->|Hne].
    + rewrite lookup_insert_eq, E. split; intros _; eexists; reflexivity.
    + rewrite lookup_insert_ne by congruence. reflexivity.
  - intros info E Ht. eexists. split; [apply H2, E|].
    cbn [CppPriceFeed.topics]. rewrite Ht. apply filter_ne_self.
Qed.

(** ** [PingActor] *)


(** X15. [PingActor::on_start], by where "rust_pong" is known. Managed
    locally: the reference is the local one and no bridge call is made.
    Known to the peer only: one exists query, and the reference is the
    cross-runtime one. In both cases the members are set and exactly one
    message, Ping with count 1, is sent through the reference just stored.
    Known to nobody: the [noexcept] handler ends the process after the one
    exists query, and nothing is sent. *)
Theorem on_start_by_location :
  forall (rae : string -> Z) (actors : gmap string Actors.Actor) (self : PingActor.State),
    (forall a,
        actors !! "rust_pong"%string = Some a ->
        PingActor.on_start rae actors self
        = (Actors.Returned
             ({| PingActor.pong_ref_ := Some (Actors.LocalActorRef a);
                 PingActor.max_count_ := PingActor.max_count_ self;
                 PingActor.pong_resolved_ := true |},
              [PingActor.SendVia (Some (Actors.LocalActorRef a))
                 (msg.MPing {| msg.Ping_count := 1 |})]),
           []))
    /\ (actors !! "rust_pong"%string = None ->
        rae "rust_pong"%string <> 0 ->
        PingActor.on_start rae actors self
        = (Actors.Returned
             ({| PingActor.pong_ref_ :=
                   Some (Actors.ToRust {| Actors.target_name_ := "rust_pong";
                                          Actors.sender_name_ := "" |});
                 PingActor.max_count_ := PingActor.max_count_ self;
                 PingActor.pong_resolved_ := true |},
              [PingActor.SendVia
                 (Some (Actors.ToRust {| Actors.target_name_ := "rust_pong";
                                         Actors.sender_name_ := "" |}))
                 (msg.MPing {| msg.Ping_count := 1 |})]),
           [Actors.Exists "rust_pong"]))
    /\ (actors !! "rust_pong"%string = None ->
        rae "rust_pong"%string = 0 ->
        PingActor.on_start rae actors self
        = (Actors.Terminated, [Actors.Exists "rust_pong"])).
Proof.
  intros rae actors self.
  unfold PingActor.on_start, InteropManager.get_ref, InteropManager.get_actor_by_name.
  change (CStr.c_str "rust_pong") with "rust_pong"%string.
  split; [|split].
  - intros a ->. reflexivity.
  - intros -> Hne. apply Z.eqb_neq in Hne. rewrite Hne. reflexivity.
  - intros -> He. rewrite He. reflexivity.
Qed.

(** ** References from [get_ref], sent through *)

(** X16. A cross-runtime reference returned by [get_ref] targets the name
    looked up and has an empty sender name; so every [rust_actor_send] made
    by [RustActorRef::send] through such a reference is addressed to that
    name and carries a null sender name, whatever the message and whoever
    the [sender] argument is. *)
Theorem get_ref_reference_has_no_sender :
  forall (rae : string -> Z) (actors : gmap string Actors.Actor) (n : string)
         (r : Actors.RustActorRef) (calls : list Actors.BridgeCall),
    InteropManager.get_ref rae actors n = (Actors.Returned (Actors.ToRust r), calls) ->
    Actors.target_name_ r = n
    /\ Actors.sender_name_ r = ""%string
    /\ (forall m sender h h' evs c,
           RustActorRef.send r m sender h = Some (h', evs) ->
           c ∈ RustActorRef.bridge_calls evs ->
           exists id payload, c = Actors.Send (CStr.c_str n) None id payload).
Proof.
  intros rae actors n r calls H.
  assert (Hr : r = {| Actors.target_name_ := n; Actors.sender_name_ := "" |}).
  { unfold InteropManager.get_ref in H.
    destruct (InteropManager.get_actor_by_name actors n); [discriminate H|].
    destruct (negb _); [|discriminate H]. injection H as <- _. reflexivity. }
  subst r. split; [reflexivity|]. split; [reflexivity|].
  intros m sender h h' evs c Hs Hc. unfold RustActorRef.send in Hs.
  destruct (h !! m) as [obj|]; [|discriminate Hs]. simpl in Hs.
  destruct (RustActorRef.dispatch _ obj) as [cs|] eqn:D; [|discriminate Hs].
  simpl in Hs. injection Hs as _ <-.
  destruct obj as [i|id].
  - rewrite dispatch_interop in D. injection D as <-. simpl in Hc.
    apply list_elem_of_singleton in Hc. subst c. eexists. eexists. reflexivity.
  - unfold RustActorRef.dispatch in D. cbn [msg.get_message_id] in D.
    assert (Hcs : cs = []).
    { destruct id as [|p|p]; try (injection D as <-; reflexivity).
      do 10 (try (destruct p as [p|p|];
                  try (injection D as <-; reflexivity);
                  try discriminate D)). }
    subst cs. simpl in Hc. apply elem_of_nil in Hc. contradiction.
Qed.

Lemma get_ref_reference_has_no_sender_witness :
  exists id payload,
    Actors.Send "rust_pong" None 1000 (Wire.SPing {| Wire.Ping_count := 1 |})
    = Actors.Send (CStr.c_str "rust_pong") None id payload.
Proof.
  assert (H : InteropManager.get_ref
                (fun n => if String.eqb n "rust_pong" then 1 else 0) ∅ "rust_pong"
              = (Actors.Returned
                   (Actors.ToRust {| Actors.target_name_ := "rust_pong";
                                     Actors.sender_name_ := "" |}),
                 [Actors.Exists "rust_pong"]))
    by reflexivity.
  assert (S : RustActorRef.send
                {| Actors.target_name_ := "rust_pong"; Actors.sender_name_ := "" |}
                7 (Some {| Actors.addr := 1; Actors.name := "cpp_ping" |})
                (<[7%positive := msg.Interop (msg.MPing {| msg.Ping_count := 1 |})]> ∅)
              = Some (∅,
                      [RustActorRef.Bridge
                         (Actors.Send "rust_pong" None 1000
                            (Wire.SPing {| Wire.Ping_count := 1 |}));
                       RustActorRef.Delete 7]))
    by (vm_compute; reflexivity).
  apply (proj2 (proj2 (get_ref_reference_has_no_sender _ _ _ _ _ H)) _ _ _ _ _ _ S).
  simpl. apply list_elem_of_here.
Defined.

(** ** The branches of [RustActorRef::send] *)

(** X17. For a message of any of the eight schema classes,
    [RustActorRef::send] makes exactly one [rust_actor_send] and then deletes
    the message: the call is addressed to [target_name_], its sender name is
    null exactly when [sender_name_] is empty, the id it passes is the id of
    the message, and the struct it points to is the struct declared for that
    id. *)
Theorem send_call_matches_message :
  forall (self : Actors.RustActorRef) (m : positive) (sender : option Actors.Actor)
         (h : gmap positive msg.Message) (i : msg.InteropMessage),
    h !! m = Some (msg.Interop i) ->
    exists payload,
      RustActorRef.send self m sender h
      = Some (delete m h,
              [RustActorRef.Bridge
                 (Actors.Send (CStr.c_str (Actors.target_name_ self))
                    (RustActorRef.sender_name_cstr self)
                    (msg.get_message_id (msg.Interop i)) payload);
               RustActorRef.Delete m])
      /\ Schema.type_of_id (msg.get_message_id (msg.Interop i))
         = Some (Wire.struct_type payload)
      /\ (RustActorRef.sender_name_cstr self = None
          <-> Actors.sender_name_ self = ""%string).
Proof.
  intros self m sender h i Hm. exists (Codec.to_c_struct i).
  split; [|split].
  - unfold RustActorRef.send. rewrite Hm. simpl. rewrite dispatch_interop. reflexivity.
  - destruct i; reflexivity.
  - unfold RustActorRef.sender_name_cstr.
    destruct (String.eqb_spec (Actors.sender_name_ self) "") as [E|E].
    + split; [intros _; exact E|reflexivity].
    + split; [intros H; discriminate H|intros H; contradiction].
Qed.

Lemma send_call_matches_message_witness :
  exists payload,
    RustActorRef.send
      {| Actors.target_name_ := "rust_price_monitor"; Actors.sender_name_ := "cpp_price_feed" |}
      3 None
      (<[3%positive :=
           msg.Interop
             (msg.MSubscribe {| msg.Subscribe_topic := list_ascii_of_string "AAPL" |})]> ∅)
    = Some (delete 3%positive
              (<[3%positive :=
                   msg.Interop
                     (msg.MSubscribe
                        {| msg.Subscribe_topic := list_ascii_of_string "AAPL" |})]> ∅),
            [RustActorRef.Bridge
               (Actors.Send "rust_price_monitor" (Some "cpp_price_feed"%string) 1010 payload);
             RustActorRef.Delete 3]).
Proof.
  assert (Hm : (<[3%positive :=
                    msg.Interop
                      (msg.MSubscribe
                         {| msg.Subscribe_topic := list_ascii_of_string "AAPL" |})]> ∅
                : gmap positive msg.Message) !! 3%positive
               = Some (msg.Interop
                         (msg.MSubscribe
                            {| msg.Subscribe_topic := list_ascii_of_string "AAPL" |})))
    by reflexivity.
  destruct (send_call_matches_message
              {| Actors.target_name_ := "rust_price_monitor";
                 Actors.sender_name_ := "cpp_price_feed" |}
              3%positive None _ _ Hm) as (payload & H & _).
  exists payload. exact H.
Defined.

(** ** [MarketSubscriber::on_update] *)

Section MarketSubscriberFacts.
Import MarketSubscriber.

Lemma run_general c t ms :
  fold_left
    (fun st m =>
       let '(c, t) := on_update (fst st) m in
       (c, if t then S (snd st) else snd st))
    ms (c, t)
  = (c + Z.of_nat (length ms),
     (t + (Z.to_nat (Z.max 0 (c + Z.of_nat (length ms) - 2))
           - Z.to_nat (Z.max 0 (c - 2))))%nat).
Proof.
  revert c t. induction ms as [|m ms IH]; intros c t.
  - simpl. f_equal; lia.
  - cbn [fold_left fst snd on_update]. unfold on_update. cbn [fst snd].
    destruct (Z.geb_spec (c + 1) 3) as [Hge|Hlt]; rewrite IH; cbn [length];
      f_equal; lia.
Qed.

End MarketSubscriberFacts.

(** X18. Starting from a count of zero, [MarketSubscriber] does not call
    [terminate] during the first two updates, calls it at the third, and at
    every update after that: after [n] updates the count is [n] and
    [terminate] has been called [n - 2] times ([0] for [n < 3]). This is for
    as many updates as the [int] counter can count. *)
Theorem terminate_from_the_third_update :
  forall ms : list msg.MarketUpdate,
    Z.of_nat (length ms) < 2 ^ 31 ->
    MarketSubscriber.run 0 ms = (Z.of_nat (length ms), (length ms - 2)%nat)
    /\ Num.in_int32 (fst (MarketSubscriber.run 0 ms)) = true.
Proof.
  intros ms Hn.
  assert (E : MarketSubscriber.run 0 ms = (Z.of_nat (length ms), (length ms - 2)%nat)).
  { unfold MarketSubscriber.run. rewrite run_general. f_equal; lia. }
  split; [exact E|]. rewrite E. cbn [fst]. unfold Num.in_int32.
  apply andb_true_iff. split; [apply Z.leb_le|apply Z.ltb_lt]; lia.
Qed.

Lemma terminate_from_the_third_update_witness :
  MarketSubscriber.run 0
    (repeat {| msg.MarketUpdate_symbol := list_ascii_of_string "AAPL" ++ repeat CStr.NUL 4;
               msg.MarketUpdate_price := 4639481672377565184;
               msg.MarketUpdate_timestamp := 1700000000000;
               msg.MarketUpdate_volume := 100 |} 3)
  = (3, 1%nat).
Proof.
  apply (proj1 (terminate_from_the_third_update
                  (repeat {| msg.MarketUpdate_symbol :=
                               list_ascii_of_string "AAPL" ++ repeat CStr.NUL 4;
                             msg.MarketUpdate_price := 4639481672377565184;
                             msg.MarketUpdate_timestamp := 1700000000000;
                             msg.MarketUpdate_volume := 100 |} 3)
                  ltac:(vm_compute; reflexivity))).
Defined.

(** ** The Rust side's lookup *)

(** X19. The Rust lookup [get_actor_ref] is local first: a name the Rust
    manager knows is returned without any call to the C++ side; otherwise
    one exists query is made, and the result is a [Cpp] reference to that
    name carrying the sender name given, or [None] when the C++ side does not
    have it either. A message sent through the [Cpp] reference is addressed
    to that name from that sender. *)
Theorem get_actor_ref_local_first :
  forall (manager_get_ref : string -> option RustSide.ActorRef)
         (cpp_actor_exists : string -> bool) (name sender : string),
    (forall r,
        manager_get_ref name = Some r ->
        RustSide.get_actor_ref manager_get_ref cpp_actor_exists name sender
        = (Some r, []))
    /\ (manager_get_ref name = None ->
        cpp_actor_exists name = true ->
        RustSide.get_actor_ref manager_get_ref cpp_actor_exists name sender
        = (Some (RustSide.Cpp name sender), [RustSide.CppExists name])
        /\ forall id,
            RustSide.send (RustSide.Cpp name sender) id = [RustSide.CppSend name sender id])
    /\ (manager_get_ref name = None ->
        cpp_actor_exists name = false ->
        RustSide.get_actor_ref manager_get_ref cpp_actor_exists name sender
        = (None, [RustSide.CppExists name])).
Proof.
  intros mgr ex name sender. unfold RustSide.get_actor_ref. split; [|split].
  - intros r ->. reflexivity.
  - intros -> ->. split; reflexivity.
  - intros -> ->. reflexivity.
Qed.

(** X20. The lazy lookup [get_publisher] resolves at most once: once a call
    has returned a reference, every later call returns the same reference
    and makes no call to the C++ side, whatever the two registries hold by
    then; as long as the lookup fails, the member stays empty and the next
    call asks again. *)
Theorem get_publisher_resolves_once :
  forall (manager_get_ref : string -> option RustSide.ActorRef)
         (cpp_actor_exists : string -> bool) (publisher : option RustSide.ActorRef),
    (forall publisher' r calls manager_get_ref' cpp_actor_exists',
        RustSide.get_publisher manager_get_ref cpp_actor_exists publisher
        = (publisher', Some r, calls) ->
        RustSide.get_publisher manager_get_ref' cpp_actor_exists' publisher'
        = (Some r, Some r, []))
    /\ (forall publisher' calls,
           RustSide.get_publisher manager_get_ref cpp_actor_exists publisher
           = (publisher', None, calls) ->
           publisher = None /\ publisher' = None
           /\ manager_get_ref "cpp_publisher"%string = None
           /\ cpp_actor_exists "cpp_publisher"%string = false
           /\ calls = [RustSide.CppExists "cpp_publisher"]
           /\ forall manager_get_ref' cpp_actor_exists',
               RustSide.get_publisher manager_get_ref' cpp_actor_exists' publisher'
               = (fst (RustSide.get_actor_ref manager_get_ref' cpp_actor_exists'
                         "cpp_publisher" "rust_subscriber"),
                  fst (RustSide.get_actor_ref manager_get_ref' cpp_actor_exists'
                         "cpp_publisher" "rust_subscriber"),
                  snd (RustSide.get_actor_ref manager_get_ref' cpp_actor_exists'
                         "cpp_publisher" "rust_subscriber"))).
Proof.
  intros mgr ex publisher. split.
  - intros publisher' r calls mgr' ex' H. unfold RustSide.get_publisher in H.
    destruct publisher as [r0|].
    + injection H as <- <- _. reflexivity.
    + destruct (RustSide.get_actor_ref mgr ex "cpp_publisher" "rust_subscriber")
        as [r1 c1].
      injection H as <- -> _. reflexivity.
  - intros publisher' calls H. unfold RustSide.get_publisher in H.
    destruct publisher as [r0|]; [discriminate H|].
    unfold RustSide.get_actor_ref in H.
    destruct (mgr "cpp_publisher"%string) as [r1|]; [discriminate H|].
    destruct (ex "cpp_publisher"%string); [discriminate H|].
    injection H as <- <-.
    repeat (split; [reflexivity|]).
    intros mgr' ex'. unfold RustSide.get_publisher.
    destruct (RustSide.get_actor_ref mgr' ex' "cpp_publisher" "rust_subscriber").
    reflexivity.
Qed.

(** ** Allocation and [send] together *)

(** X21. A message allocated for the call ([new msg::T{...}] at an address
    that was free) and handed to [RustActorRef::send] leaves the store exactly
    as it was before the allocation: nothing leaks and nothing else is
    freed, for a message of a schema class (after its one bridge call) and
    for a message of any other class with an unregistered id (with no bridge
    call). *)
Theorem allocate_then_send_restores_the_store :
  forall (self : Actors.RustActorRef) (p : positive) (sender : option Actors.Actor)
         (h : gmap positive msg.Message) (obj : msg.Message),
    h !! p = None ->
    RustActorRef.well_typed obj = true ->
    exists evs,
      RustActorRef.send self p sender (<[p := obj]> h) = Some (h, evs)
      /\ RustActorRef.deletions p evs = 1%nat
      /\ (forall q, q <> p -> RustActorRef.deletions q evs = 0%nat).
Proof.
  intros self p sender h obj Hfree Hwt.
  assert (Hd : exists calls,
             RustActorRef.dispatch self obj = Some calls
             /\ forall q, RustActorRef.deletions q calls = 0%nat).
  { destruct obj as [i|id].
    - eexists. rewrite dispatch_interop. split; [reflexivity|]. intros q. reflexivity.
    - exists []. split; [|intros q; reflexivity].
      apply dispatch_default. simpl in Hwt |- *. apply negb_true_iff in Hwt. exact Hwt. }
  destruct Hd as (calls & Hc & Hz).
  exists (calls ++ [RustActorRef.Delete p]).
  split; [|split].
  - unfold RustActorRef.send. rewrite lookup_insert_eq. simpl. rewrite Hc. simpl.
    rewrite delete_insert_eq, (delete_id _ _ Hfree). reflexivity.
  - unfold RustActorRef.deletions in *. rewrite List.filter_app, length_app, Hz.
    simpl. rewrite Pos.eqb_refl. reflexivity.
  - intros q Hq. unfold RustActorRef.deletions in *.
    rewrite List.filter_app, length_app, Hz. simpl.
    destruct (Pos.eqb_spec q p) as [E|_]; [contradiction|reflexivity].
Qed.

Lemma allocate_then_send_restores_the_store_witness :
  exists evs,
    RustActorRef.send
      {| Actors.target_name_ := "rust_price_monitor"; Actors.sender_name_ := "" |}
      4 None
      (<[4%positive :=
           msg.Interop
             (msg.MMarketUpdate
                {| msg.MarketUpdate_symbol := list_ascii_of_string "AAPL" ++ repeat CStr.NUL 4;
                   msg.MarketUpdate_price := 4639481672377565184;
                   msg.MarketUpdate_timestamp := 1700000000000;
                   msg.MarketUpdate_volume := 2345 |})]>
         (<[2%positive := msg.Foreign 6]> ∅))
    = Some (<[2%positive := msg.Foreign 6]> ∅, evs)
    /\ RustActorRef.deletions 4 evs = 1%nat.
Proof.
  assert (Hfree : (<[2%positive := msg.Foreign 6]> ∅ : gmap positive msg.Message)
                  !! 4%positive = None) by reflexivity.
  destruct (allocate_then_send_restores_the_store
              {| Actors.target_name_ := "rust_price_monitor"; Actors.sender_name_ := "" |}
              4%positive None _
              (msg.Interop
                 (msg.MMarketUpdate
                    {| msg.MarketUpdate_symbol :=
                         list_ascii_of_string "AAPL" ++ repeat CStr.NUL 4;
                       msg.MarketUpdate_price := 4639481672377565184;
                       msg.MarketUpdate_timestamp := 1700000000000;
                       msg.MarketUpdate_volume := 2345 |}))
              Hfree eq_refl) as (evs & H1 & H2 & _).
  exists evs. split; [exact H1|exact H2].
Defined.
